(** * Dagger / PipeCanvas client: the pipeline form and the live builder modal

    A shallow embedding of [src/client/components/pipelines/pipeline-form.tsx]
    (the [PipelineForm] component and the [LiveBuilderModal] component with its
    [reducer]) together with the properties of the synthesis run that the
    specification states about them. *)

From Stdlib Require Import List NArith Arith Bool String Ascii Lia.
Import ListNotations.

Set Implicit Arguments.

(** ** JavaScript strings

    A JavaScript string is a sequence of UTF-16 code units. *)

Module Js.

Definition JsString := list N.

Definition lit (s : string) : JsString :=
  map N_of_ascii (list_ascii_of_string s).

(** ECMAScript [WhiteSpace] and [LineTerminator] code points, the characters
    [String.prototype.trim] strips.  All of them lie in the basic plane. *)
Definition isWhiteSpace (c : N) : bool :=
  ((c =? 0x0009) || (c =? 0x000A) || (c =? 0x000B) || (c =? 0x000C) ||
   (c =? 0x000D) || (c =? 0x0020) || (c =? 0x00A0) || (c =? 0x1680) ||
   ((0x2000 <=? c) && (c <=? 0x200A)) ||
   (c =? 0x2028) || (c =? 0x2029) || (c =? 0x202F) || (c =? 0x205F) ||
   (c =? 0x3000) || (c =? 0xFEFF))%N.

Fixpoint trimStart (s : JsString) : JsString :=
  match s with
  | [] => []
  | c :: r => if isWhiteSpace c then trimStart r else s
  end.

Definition trimEnd (s : JsString) : JsString := rev (trimStart (rev s)).

(** [s.trim()] *)
Definition trim (s : JsString) : JsString := trimEnd (trimStart s).

(** Truthiness of a string: only the empty string is falsy. *)
Definition truthy (s : JsString) : bool :=
  match s with [] => false | _ :: _ => true end.

Definition whitespace_only (s : JsString) : Prop :=
  Forall (fun c => isWhiteSpace c = true) s.

(** [a === b] on strings. *)
Fixpoint str_eqb (a b : JsString) : bool :=
  match a, b with
  | [], [] => true
  | x :: a', y :: b' => N.eqb x y && str_eqb a' b'
  | _, _ => false
  end.

End Js.

Import Js.

(** ** Shared data types ([@/lib/types])

    The type declarations of [@/lib/types] are not part of the sources at
    hand; the client code only stores and forwards these values. *)

Module Types.

(** Modelled from the spec: [ParsedCSV], the parsed dataset handed over by the
    CSV upload, is missing from the sources; it follows the TabularValue of
    section 3 (ordered column names, ordered rows mapping column to raw
    value). *)
Record ParsedCSV := {
  headers : list JsString;
  rows : list (list (JsString * JsString));
}.

(** Modelled from the spec: the operation vocabulary of section 3. *)
Inductive OperationKind :=
| Filter | NormalizeField | Deduplicate | DeriveColumn | Sort
| SelectColumns | Aggregate.

(** Modelled from the spec: an operation is a kind with its parameters. *)
Record Operation := {
  kind : OperationKind;
  parameters : list (JsString * JsString);
}.

(** Modelled from the spec: [PipelineSpec], missing from the sources, follows
    the PipelineSpecification of section 3. *)
Record PipelineSpec := {
  id : JsString;
  version : N;
  operations : list Operation;
  created_from_prompt : JsString;
}.

Inductive ErrorCategory := Structural | Runtime | Semantic.

(** Modelled from the spec: the ValidationError of section 3. *)
Record ValidationError := {
  operation_index : option nat;
  category : ErrorCategory;
  message : JsString;
  sample_context : option (list (list (JsString * JsString)));
}.

End Types.

Import Types.

(** ** [PipelineForm] *)

Module Form.

(** The argument of the [onSubmit] callback. *)
Record SubmitData := {
  sd_prompt : JsString;
  sd_csvContent : JsString;
  sd_parsedData : ParsedCSV;
}.

Inductive Step := Step1 | Step2.

(** The component's [useState] cells. *)
Record FormState := {
  step : Step;
  parsedData : option ParsedCSV;
  rawContent : JsString;
  prompt : JsString;
}.

(** Calls made on the component's props. *)
Inductive Call := OnSubmit (d : SubmitData).

Definition handleDataParsed (st : FormState) (data : ParsedCSV)
    (content : JsString) : FormState :=
  {| step := step st; parsedData := Some data; rawContent := content;
     prompt := prompt st |}.

Definition setPrompt (st : FormState) (p : JsString) : FormState :=
  {| step := step st; parsedData := parsedData st;
     rawContent := rawContent st; prompt := p |}.

(** [handleSubmit]: returns the calls it makes.
<<
    if (!parsedData || !prompt.trim()) return;
    onSubmit({ prompt: prompt.trim(), csvContent: rawContent, parsedData });
>> *)
Definition handleSubmit (st : FormState) : list Call :=
  match parsedData st with
  | None => []
  | Some pd =>
      if negb (truthy (trim (prompt st))) then []
      else [OnSubmit {| sd_prompt := trim (prompt st);
                        sd_csvContent := rawContent st;
                        sd_parsedData := pd |}]
  end.

(** The [disabled] attribute of the "Build Pipeline" button. *)
Definition buildDisabled (st : FormState) (isSubmitting : bool) : bool :=
  negb (truthy (trim (prompt st))) || isSubmitting.

(** A click on the "Build Pipeline" button: a disabled button fires no
    handler. *)
Definition clickBuild (st : FormState) (isSubmitting : bool) : list Call :=
  if buildDisabled st isSubmitting then [] else handleSubmit st.

End Form.

(** ** [LiveBuilderModal] and its reducer *)

Module LiveBuilder.

(** [AgentPhase] *)
Inductive AgentPhase :=
| analyzing | generating | validating | executing | evaluating
| complete | failed.

(** The values of [finalStatus]: ["success"] and ["failed"]. *)
Inductive FinalStatus := status_success | status_failed.

(** One entry of the validation feed. *)
Record ValidationEntry := {
  iteration : N;
  errors : list ValidationError;
  timestamp : JsString;
  fixed : bool;
}.

(** [response.report] *)
Record Report := {
  pipeline_spec : option PipelineSpec;
  fix_iterations : N;
  validation_errors : list ValidationError;
}.

(** [CreatePipelineResponse] *)
Record Response := {
  run_id : JsString;
  pipeline_id : JsString;
  report : Report;
}.

(** [State]: [LiveBuilderState] extended with [previousSpec]. *)
Record State := {
  runId : JsString;
  phase : AgentPhase;
  currentIteration : N;
  maxIterations : N;
  currentSpec : option PipelineSpec;
  validationErrors : list ValidationEntry;
  isComplete : bool;
  finalStatus : option FinalStatus;
  previousSpec : option PipelineSpec;
}.

(** The payload of an [UPDATE]: every key is optional, [None] standing for an
    absent key.  [p_previousSpec] is present only when a whole [State] is
    passed as the payload. *)
Record Payload := {
  p_runId : option JsString;
  p_phase : option AgentPhase;
  p_currentIteration : option N;
  p_maxIterations : option N;
  p_currentSpec : option (option PipelineSpec);
  p_validationErrors : option (list ValidationEntry);
  p_isComplete : option bool;
  p_finalStatus : option (option FinalStatus);
  p_previousSpec : option (option PipelineSpec);
}.

Inductive Action :=
| UPDATE (payload : Payload)
| SET_PREVIOUS_SPEC (payload : option PipelineSpec).

(** One key of the object spread [{...state, ...payload}]. *)
Definition spread {A : Type} (old : A) (new : option A) : A :=
  match new with
  | Some v => v
  | None => old
  end.

(** [reducer].  In the [UPDATE] case the key [previousSpec] is written after
    both spreads, so it overrides whatever the payload carries for it. *)
Definition reducer (state : State) (action : Action) : State :=
  match action with
  | UPDATE payload =>
      {| runId := spread (runId state) (p_runId payload);
         phase := spread (phase state) (p_phase payload);
         currentIteration :=
           spread (currentIteration state) (p_currentIteration payload);
         maxIterations := spread (maxIterations state) (p_maxIterations payload);
         currentSpec := spread (currentSpec state) (p_currentSpec payload);
         validationErrors :=
           spread (validationErrors state) (p_validationErrors payload);
         isComplete := spread (isComplete state) (p_isComplete payload);
         finalStatus := spread (finalStatus state) (p_finalStatus payload);
         previousSpec :=
           match p_currentSpec payload with
           | Some _ => currentSpec state
           | None => previousSpec state
           end |}
  | SET_PREVIOUS_SPEC payload =>
      {| runId := runId state;
         phase := phase state;
         currentIteration := currentIteration state;
         maxIterations := maxIterations state;
         currentSpec := currentSpec state;
         validationErrors := validationErrors state;
         isComplete := isComplete state;
         finalStatus := finalStatus state;
         previousSpec := payload |}
  end.

Definition getInitialState (runId : JsString) : State :=
  {| runId := runId;
     phase := analyzing;
     currentIteration := 0;
     maxIterations := 3;
     currentSpec := None;
     validationErrors := [];
     isComplete := false;
     finalStatus := None;
     previousSpec := None |}.

(** A whole [State] used as an [UPDATE] payload: every key is present. *)
Definition payload_of_state (s : State) : Payload :=
  {| p_runId := Some (runId s);
     p_phase := Some (phase s);
     p_currentIteration := Some (currentIteration s);
     p_maxIterations := Some (maxIterations s);
     p_currentSpec := Some (currentSpec s);
     p_validationErrors := Some (validationErrors s);
     p_isComplete := Some (isComplete s);
     p_finalStatus := Some (finalStatus s);
     p_previousSpec := Some (previousSpec s) |}.

(** [{ phase }] *)
Definition phasePayload (ph : AgentPhase) : Payload :=
  {| p_runId := None; p_phase := Some ph; p_currentIteration := None;
     p_maxIterations := None; p_currentSpec := None;
     p_validationErrors := None; p_isComplete := None;
     p_finalStatus := None; p_previousSpec := None |}.

(** The payload dispatched when [createAndRunPipeline] has returned
    [response]; [now] is [new Date().toISOString()]. *)
Definition successPayload (response : Response) (now : JsString) : Payload :=
  {| p_runId := Some (run_id response);
     p_phase := Some complete;
     p_currentIteration := Some (fix_iterations (report response));
     p_maxIterations := None;
     p_currentSpec := Some (pipeline_spec (report response));
     p_validationErrors :=
       Some (if (0 <? N.of_nat (List.length (validation_errors (report response))))%N
             then [ {| iteration := fix_iterations (report response);
                       errors := validation_errors (report response);
                       timestamp := now;
                       fixed := true |} ]
             else []);
     p_isComplete := Some true;
     p_finalStatus := Some (Some status_success);
     p_previousSpec := None |}.

(** The payload dispatched by the [catch] block. *)
Definition failedPayload : Payload :=
  {| p_runId := None; p_phase := Some failed; p_currentIteration := None;
     p_maxIterations := None; p_currentSpec := None;
     p_validationErrors := None; p_isComplete := Some true;
     p_finalStatus := Some (Some status_failed); p_previousSpec := None |}.

(** The timetable of [simulatePhases]: phase and delay in milliseconds. *)
Definition phases : list (AgentPhase * N) :=
  [ (analyzing, 0); (generating, 1500); (validating, 4000);
    (executing, 6000); (evaluating, 8000) ]%N.

(** The derived flag [isComplete] of the render function (not the state
    field of the same name). *)
Definition phaseIsComplete (s : State) : bool :=
  match phase s with
  | complete | failed => true
  | _ => false
  end.

(** *** The component instance *)

Record AbortController := { aborted : bool }.

(** A value caught by [catch (err)]: an [Error] with its message, or anything
    else. *)
Inductive Thrown := ErrorObject (msg : JsString) | NonError.

(** The argument of [createAndRunPipeline]. *)
Record Request := {
  req_prompt : JsString;
  req_format : JsString;
  req_content_base64 : JsString;
  req_max_fix_iters : N;
}.

(** The argument of [onComplete]. *)
Record CompleteData := {
  cd_runId : JsString;
  cd_pipelineId : JsString;
  cd_response : Response;
}.

(** Calls that leave the component. *)
Inductive Call :=
| ApiCall (run : nat) (req : Request)
| ConsoleError (err : Thrown)
| OnCancel
| OnComplete (d : CompleteData).

(** A pending [setTimeout] callback of [simulatePhases]; [t_run] names the
    invocation of [runPipeline] that scheduled it. *)
Record Timer := {
  t_run : nat;
  t_phase : AgentPhase;
  t_delay : N;
}.

(** The component: props, hook cells and refs, and the pending work of the
    event loop (timers, unsettled API calls), with the trace of outward
    calls. *)
Record Modal := {
  isOpen : bool;
  prompt : JsString;
  csvBase64 : JsString;
  state : State;
  apiResponse : option Response;
  error : option JsString;
  abortControllerRef : option AbortController;
  hasStartedRef : bool;
  timeouts : list Timer;
  inFlight : list nat;
  nextRun : nat;
  calls : list Call;
}.

(** Setters for the cells the handlers write. *)
Definition set_isOpen (m : Modal) (b : bool) : Modal :=
  {| isOpen := b; prompt := prompt m; csvBase64 := csvBase64 m;
     state := state m; apiResponse := apiResponse m; error := error m;
     abortControllerRef := abortControllerRef m;
     hasStartedRef := hasStartedRef m; timeouts := timeouts m;
     inFlight := inFlight m; nextRun := nextRun m; calls := calls m |}.

Definition set_state (m : Modal) (s : State) : Modal :=
  {| isOpen := isOpen m; prompt := prompt m; csvBase64 := csvBase64 m;
     state := s; apiResponse := apiResponse m; error := error m;
     abortControllerRef := abortControllerRef m;
     hasStartedRef := hasStartedRef m; timeouts := timeouts m;
     inFlight := inFlight m; nextRun := nextRun m; calls := calls m |}.

Definition setApiResponse (m : Modal) (r : option Response) : Modal :=
  {| isOpen := isOpen m; prompt := prompt m; csvBase64 := csvBase64 m;
     state := state m; apiResponse := r; error := error m;
     abortControllerRef := abortControllerRef m;
     hasStartedRef := hasStartedRef m; timeouts := timeouts m;
     inFlight := inFlight m; nextRun := nextRun m; calls := calls m |}.

Definition setError (m : Modal) (e : option JsString) : Modal :=
  {| isOpen := isOpen m; prompt := prompt m; csvBase64 := csvBase64 m;
     state := state m; apiResponse := apiResponse m; error := e;
     abortControllerRef := abortControllerRef m;
     hasStartedRef := hasStartedRef m; timeouts := timeouts m;
     inFlight := inFlight m; nextRun := nextRun m; calls := calls m |}.

Definition set_abortControllerRef (m : Modal) (c : option AbortController)
    : Modal :=
  {| isOpen := isOpen m; prompt := prompt m; csvBase64 := csvBase64 m;
     state := state m; apiResponse := apiResponse m; error := error m;
     abortControllerRef := c;
     hasStartedRef := hasStartedRef m; timeouts := timeouts m;
     inFlight := inFlight m; nextRun := nextRun m; calls := calls m |}.

Definition set_hasStartedRef (m : Modal) (b : bool) : Modal :=
  {| isOpen := isOpen m; prompt := prompt m; csvBase64 := csvBase64 m;
     state := state m; apiResponse := apiResponse m; error := error m;
     abortControllerRef := abortControllerRef m;
     hasStartedRef := b; timeouts := timeouts m;
     inFlight := inFlight m; nextRun := nextRun m; calls := calls m |}.

Definition set_timeouts (m : Modal) (ts : list Timer) : Modal :=
  {| isOpen := isOpen m; prompt := prompt m; csvBase64 := csvBase64 m;
     state := state m; apiResponse := apiResponse m; error := error m;
     abortControllerRef := abortControllerRef m;
     hasStartedRef := hasStartedRef m; timeouts := ts;
     inFlight := inFlight m; nextRun := nextRun m; calls := calls m |}.

Definition set_inFlight (m : Modal) (l : list nat) : Modal :=
  {| isOpen := isOpen m; prompt := prompt m; csvBase64 := csvBase64 m;
     state := state m; apiResponse := apiResponse m; error := error m;
     abortControllerRef := abortControllerRef m;
     hasStartedRef := hasStartedRef m; timeouts := timeouts m;
     inFlight := l; nextRun := nextRun m; calls := calls m |}.

Definition set_nextRun (m : Modal) (n : nat) : Modal :=
  {| isOpen := isOpen m; prompt := prompt m; csvBase64 := csvBase64 m;
     state := state m; apiResponse := apiResponse m; error := error m;
     abortControllerRef := abortControllerRef m;
     hasStartedRef := hasStartedRef m; timeouts := timeouts m;
     inFlight := inFlight m; nextRun := n; calls := calls m |}.

(** Appends an outward call to the trace. *)
Definition emit (m : Modal) (c : Call) : Modal :=
  {| isOpen := isOpen m; prompt := prompt m; csvBase64 := csvBase64 m;
     state := state m; apiResponse := apiResponse m; error := error m;
     abortControllerRef := abortControllerRef m;
     hasStartedRef := hasStartedRef m; timeouts := timeouts m;
     inFlight := inFlight m; nextRun := nextRun m;
     calls := calls m ++ [c] |}.

(** [dispatch(action)] *)
Definition dispatch (m : Modal) (a : Action) : Modal :=
  set_state m (reducer (state m) a).

(** [if (abortControllerRef.current) abortControllerRef.current.abort()].
    The controller's signal is handed to no one, so only its flag changes. *)
Definition abort (m : Modal) : Modal :=
  match abortControllerRef m with
  | Some _ => set_abortControllerRef m (Some {| aborted := true |})
  | None => m
  end.

(** *** Statements that may throw: a state-and-exception monad

    A thrown value does not roll the component's cells back, so the state is
    threaded through both completions. *)

Inductive Completion (A : Type) :=
| Normal (a : A)
| Throw (e : Thrown).

Arguments Normal {A} a.
Arguments Throw {A} e.

Definition M (A : Type) : Type := Modal -> Completion A * Modal.

Definition ret {A : Type} (a : A) : M A := fun m => (Normal a, m).

Definition bind {A B : Type} (c : M A) (k : A -> M B) : M B :=
  fun m =>
    match c m with
    | (Normal a, m1) => k a m1
    | (Throw e, m1) => (Throw e, m1)
    end.

(** A statement that cannot throw. *)
Definition exec (f : Modal -> Modal) : M unit := fun m => (Normal tt, f m).

(** [await p], resumed with the settled value of the promise. *)
Definition await {A : Type} (settled : Completion A) : M A :=
  fun m => (settled, m).

(** [try { body } catch (err) { handler err } finally { finalizer }] *)
Definition try_catch_finally {A : Type} (body : M A) (handler : Thrown -> M A)
    (finalizer : M unit) : M A :=
  fun m =>
    let (r1, m1) := body m in
    let (r2, m2) :=
      match r1 with
      | Normal a => (Normal a, m1)
      | Throw e => handler e m1
      end in
    match finalizer m2 with
    | (Normal _, m3) => (r2, m3)
    | (Throw e, m3) => (Throw e, m3)
    end.

Declare Scope modal_scope.
Delimit Scope modal_scope with modal.
Notation "x <- c ;; k" := (bind c (fun x => k))
  (at level 61, c at next level, right associativity) : modal_scope.
Notation "c ;; k" := (bind c (fun _ => k))
  (at level 61, right associativity) : modal_scope.

(** *** [simulatePhases] and [runPipeline] *)

(** [simulatePhases()]: one timer per row of the timetable. *)
Definition simulatePhases (run : nat) (m : Modal) : Modal :=
  set_timeouts m
    (timeouts m ++
     map (fun pd => {| t_run := run; t_phase := fst pd; t_delay := snd pd |})
       phases).

(** The cleanup returned by [simulatePhases]: clears the timers of that
    invocation that are still pending. *)
Definition cleanupPhases (run : nat) (m : Modal) : Modal :=
  set_timeouts m
    (filter (fun t => negb (Nat.eqb (t_run t) run)) (timeouts m)).

Definition request (m : Modal) : Request :=
  {| req_prompt := prompt m;
     req_format := lit "csv";
     req_content_base64 := csvBase64 m;
     req_max_fix_iters := 3 |}.

(** [runPipeline] up to its [await]: a fresh controller, the phase timers,
    and the call of the API. *)
Definition runPipeline_start (m : Modal) : Modal :=
  let run := nextRun m in
  let m1 := set_abortControllerRef m (Some {| aborted := false |}) in
  let m2 := simulatePhases run m1 in
  let m3 := emit m2 (ApiCall run (request m2)) in
  set_nextRun (set_inFlight m3 (inFlight m3 ++ [run])) (S run).

(** [err instanceof Error ? err.message : "Pipeline creation failed"] *)
Definition errorMessage (err : Thrown) : JsString :=
  match err with
  | ErrorObject msg => msg
  | NonError => lit "Pipeline creation failed"
  end.

(** [runPipeline] from its [await] on, once the call of invocation [run] has
    settled with [settled]. *)
Definition runPipeline_resume (run : nat) (settled : Completion Response)
    (now : JsString) : M unit :=
  (try_catch_finally
     (response <- await settled ;;
      exec (fun m => setApiResponse m (Some response)) ;;
      exec (fun m => dispatch m (UPDATE (successPayload response now))))
     (fun err =>
        exec (fun m => emit m (ConsoleError err)) ;;
        exec (fun m => setError m (Some (errorMessage err))) ;;
        exec (fun m => dispatch m (UPDATE failedPayload)))
     (exec (cleanupPhases run)))%modal.

(** *** Effects and handlers *)

(** The effect that starts the run. *)
Definition runEffect (m : Modal) : Modal :=
  if negb (isOpen m) || hasStartedRef m then m
  else runPipeline_start (set_hasStartedRef m true).

(** The effect commented "Reset state when modal closes". *)
Definition resetEffect (m : Modal) : Modal :=
  if negb (isOpen m) then
    dispatch
      (setError (setApiResponse (set_hasStartedRef m false) None) None)
      (UPDATE (payload_of_state (getInitialState (lit "pending"))))
  else m.

Definition handleCancel (m : Modal) : Modal :=
  emit (abort m) OnCancel.

Definition handleViewResults (m : Modal) : Modal :=
  match apiResponse m with
  | Some r =>
      emit m (OnComplete {| cd_runId := run_id r;
                            cd_pipelineId := pipeline_id r;
                            cd_response := r |})
  | None => m
  end.

(** The component as mounted with [isOpen = false]. *)
Definition mount (prompt csvBase64 : JsString) : Modal :=
  {| isOpen := false; prompt := prompt; csvBase64 := csvBase64;
     state := getInitialState (lit "pending");
     apiResponse := None; error := None; abortControllerRef := None;
     hasStartedRef := false; timeouts := []; inFlight := [];
     nextRun := 0; calls := [] |}.

(** *** The event loop *)

Inductive Event :=
| EvOpen
| EvClose
| EvTimeout (run : nat)
| EvSettle (run : nat) (settled : Completion Response) (now : JsString)
| EvCancel
| EvViewResults.

(** The earliest pending timer of invocation [run], and the others. *)
Fixpoint take_timer (run : nat) (ts : list Timer)
    : option (Timer * list Timer) :=
  match ts with
  | [] => None
  | t :: r =>
      if Nat.eqb (t_run t) run then Some (t, r)
      else match take_timer run r with
           | Some (t', r') => Some (t', t :: r')
           | None => None
           end
  end.

Fixpoint remove_run (run : nat) (l : list nat) : list nat :=
  match l with
  | [] => []
  | x :: r => if Nat.eqb x run then r else x :: remove_run run r
  end.

Definition mem_run (run : nat) (l : list nat) : bool :=
  existsb (Nat.eqb run) l.

(** One turn of the event loop; [None] when the event cannot occur.
    - [EvOpen], [EvClose]: the parent flips [isOpen]; the cleanup of the run
      effect (on close) and then both effects run in declaration order;
    - [EvTimeout run]: the earliest pending timer of that invocation fires
      (timers of one invocation fire in the order of their delays);
    - [EvSettle run r now]: the API call of that invocation settles;
    - [EvCancel], [EvViewResults]: the handlers. *)
Definition step (m : Modal) (e : Event) : option Modal :=
  match e with
  | EvOpen =>
      if isOpen m then None
      else Some (resetEffect (runEffect (set_isOpen m true)))
  | EvClose =>
      if isOpen m
      then Some (resetEffect (runEffect (set_isOpen (abort m) false)))
      else None
  | EvTimeout run =>
      match take_timer run (timeouts m) with
      | Some (t, rest) =>
          Some (dispatch (set_timeouts m rest)
                  (UPDATE (phasePayload (t_phase t))))
      | None => None
      end
  | EvSettle run settled now =>
      if mem_run run (inFlight m)
      then Some (snd (runPipeline_resume run settled now
                        (set_inFlight m (remove_run run (inFlight m)))))
      else None
  | EvCancel => Some (handleCancel m)
  | EvViewResults => Some (handleViewResults m)
  end.

Fixpoint run_events (m : Modal) (es : list Event) : option Modal :=
  match es with
  | [] => Some m
  | e :: r =>
      match step m e with
      | Some m' => run_events m' r
      | None => None
      end
  end.

(** *** Phase transitions *)

Definition terminal (p : AgentPhase) : bool :=
  match p with
  | complete | failed => true
  | _ => false
  end.

(** The successor of a phase in the timetable of [simulatePhases]. *)
Definition next_phase (p : AgentPhase) : option AgentPhase :=
  match p with
  | analyzing => Some generating
  | generating => Some validating
  | validating => Some executing
  | executing => Some evaluating
  | _ => None
  end.

Definition phase_eqb (p q : AgentPhase) : bool :=
  match p, q with
  | analyzing, analyzing | generating, generating | validating, validating
  | executing, executing | evaluating, evaluating | complete, complete
  | failed, failed => true
  | _, _ => false
  end.

Definition is_next (p q : AgentPhase) : bool :=
  match next_phase p with
  | Some q' => phase_eqb q q'
  | None => false
  end.

(** The transitions listed by the state machine
    analyzing -> generating -> validating -> executing -> evaluating ->
    (complete | failed). *)
Definition listed_transition (p q : AgentPhase) : bool :=
  is_next p q || (phase_eqb p evaluating && terminal q).

(** The transitions the component takes: the next simulated phase, or the
    jump to a terminal phase from whichever phase has been reached. *)
Definition modal_transition (p q : AgentPhase) : bool :=
  is_next p q || (negb (terminal p) && terminal q).

(** *** Sessions: one run, from the opening of the modal to its closing *)

(** A closed modal with nothing left over from an earlier run. *)
Definition fresh (m : Modal) : Prop :=
  isOpen m = false /\ hasStartedRef m = false /\
  timeouts m = [] /\ inFlight m = [] /\
  phase (state m) = analyzing /\ finalStatus (state m) = None.

(** The modals reached while the modal stays open after a fresh opening. *)
Inductive session : Modal -> Prop :=
| session_open m0 m1 :
    fresh m0 -> step m0 EvOpen = Some m1 -> session m1
| session_step m e m' :
    session m -> e <> EvClose -> step m e = Some m' -> session m'.

Definition timers_of (run : nat) (l : list (AgentPhase * N)) : list Timer :=
  map (fun pd => {| t_run := run; t_phase := fst pd; t_delay := snd pd |}) l.

(** The phase shown once [k] timers of the timetable have fired. *)
Definition simulated (k : nat) : AgentPhase :=
  nth (k - 1) (map fst phases) analyzing.

(** What holds throughout a session: either the call is in flight, [k]
    timers have fired and the others are pending, or the call has settled,
    no timer is left and the state is terminal. *)
Inductive session_inv (m : Modal) : Prop :=
| inv_running (run k : nat) :
    k <= 5 ->
    isOpen m = true ->
    inFlight m = [run] ->
    timeouts m = timers_of run (skipn k phases) ->
    phase (state m) = simulated k ->
    finalStatus (state m) = None ->
    session_inv m
| inv_settled :
    isOpen m = true ->
    inFlight m = [] ->
    timeouts m = [] ->
    (phase (state m) = complete /\
     finalStatus (state m) = Some status_success) \/
    (phase (state m) = failed /\
     finalStatus (state m) = Some status_failed) ->
    session_inv m.

Definition is_settle (e : Event) : bool :=
  match e with
  | EvSettle _ _ _ => true
  | _ => false
  end.

(** How the state moves in one turn of the event loop. *)
Inductive state_move (m m' : Modal) (e : Event) : Prop :=
| move_none :
    state m' = state m -> state_move m m' e
| move_timer :
    (exists run, e = EvTimeout run) ->
    finalStatus (state m) = None ->
    finalStatus (state m') = None ->
    terminal (phase (state m)) = false ->
    terminal (phase (state m')) = false ->
    (phase (state m') = phase (state m) \/
     is_next (phase (state m)) (phase (state m')) = true) ->
    state_move m m' e
| move_settle :
    is_settle e = true ->
    finalStatus (state m) = None ->
    terminal (phase (state m)) = false ->
    (phase (state m') = complete /\
     finalStatus (state m') = Some status_success) \/
    (phase (state m') = failed /\
     finalStatus (state m') = Some status_failed) ->
    state_move m m' e.

End LiveBuilder.

(** ** Sample values *)

Module Samples.

Import LiveBuilder.

Definition spec1 : PipelineSpec :=
  {| id := lit "p1"; version := 1;
     operations :=
       [ {| kind := NormalizeField;
            parameters := [(lit "field", lit "email");
                           (lit "op", lit "lowercase")] |};
         {| kind := Deduplicate;
            parameters := [(lit "key", lit "email")] |} ];
     created_from_prompt := lit "dedupe by email" |}.

Definition err1 : ValidationError :=
  {| operation_index := Some 1; category := Runtime;
     message := lit "column phone is missing"; sample_context := None |}.

(** A response whose report lists no validation error. *)
Definition response_clean : Response :=
  {| run_id := lit "run-1"; pipeline_id := lit "pipe-1";
     report := {| pipeline_spec := Some spec1; fix_iterations := 0;
                  validation_errors := [] |} |}.

(** A response whose report still lists a validation error after three fix
    iterations. *)
Definition response_errors : Response :=
  {| run_id := lit "run-2"; pipeline_id := lit "pipe-2";
     report := {| pipeline_spec := Some spec1; fix_iterations := 3;
                  validation_errors := [err1] |} |}.




Definition now1 : JsString := lit "2025-01-01T00:00:00.000Z".

Definition modal0 : Modal := mount (lit "dedupe by email") (lit "ZW1haWwK").

(** The modal just opened: the call is in flight, no timer has fired. *)
Definition modal_opened : Modal :=
  resetEffect (runEffect (set_isOpen modal0 true)).

(** The modal once the call of run 0 has returned [response_clean]. *)
Definition modal_settled : Modal :=
  snd (runPipeline_resume 0 (Normal response_clean) now1
         (set_inFlight modal_opened [])).

Definition csv1 : ParsedCSV :=
  {| headers := [lit "email"];
     rows := [[(lit "email", lit "A@x.com")]; [(lit "email", lit "a@x.com")]] |}.

Definition form_blank : Form.FormState :=
  {| Form.step := Form.Step2; Form.parsedData := Some csv1;
     Form.rawContent := lit "email"; Form.prompt := lit "   " |}.

Definition form_no_data : Form.FormState :=
  {| Form.step := Form.Step2; Form.parsedData := None;
     Form.rawContent := lit ""; Form.prompt := lit "dedupe" |}.

Definition form_ready : Form.FormState :=
  {| Form.step := Form.Step2; Form.parsedData := Some csv1;
     Form.rawContent := lit "email"; Form.prompt := lit "  dedupe by email " |}.

End Samples.

(** ** The controls of [PipelineForm] *)

Module FormUI.

Import Form.

(** One entry of [PROMPT_TEMPLATES]. *)
Record Template := {
  tpl_id : JsString;
  tpl_title : JsString;
  tpl_description : JsString;
  tpl_prompt : JsString;
}.

Definition PROMPT_TEMPLATES : list Template :=
  [
    {| tpl_id := lit "dedup-merge";
       tpl_title := lit "Smart Deduplication";
       tpl_description := lit "Merge duplicate records intelligently";
       tpl_prompt := lit "Identify and merge duplicate customer records based on email similarity (accounting for typos like gmail vs gmial). For merged records, keep the most recent entry's data but preserve the earliest created_at date. Normalize all email addresses to lowercase, remove any rows where email is empty or invalid, and output columns: email, full_name, company, first_seen_date, last_activity_date." |};
    {| tpl_id := lit "lead-scoring";
       tpl_title := lit "Lead Qualification";
       tpl_description := lit "Score and segment sales leads";
       tpl_prompt := lit "Analyze and score leads based on engagement signals. Create a lead_score (0-100) using these weighted criteria: has company email domain (+30), title contains Director/VP/C-level (+25), company size > 100 employees (+20), opened emails in last 30 days (+15), visited pricing page (+10). Segment into tiers: hot (score >= 70), warm (40-69), cold (< 40). Filter out personal email domains (gmail, yahoo, hotmail). Output: email, name, company, title, lead_score, segment, and sort by score descending." |};
    {| tpl_id := lit "data-enrichment";
       tpl_title := lit "Data Standardization";
       tpl_description := lit "Clean and enrich messy data";
       tpl_prompt := lit "Standardize this messy dataset: normalize phone numbers to E.164 format (+1XXXXXXXXXX), parse and standardize addresses into separate columns (street, city, state, zip), fix inconsistent date formats to YYYY-MM-DD, normalize company names (remove Inc/LLC/Ltd suffixes, fix common misspellings), validate email formats and flag invalid ones. Remove completely empty rows and deduplicate based on the normalized email." |};
    {| tpl_id := lit "cohort-analysis";
       tpl_title := lit "Cohort Segmentation";
       tpl_description := lit "Group users into behavioral cohorts";
       tpl_prompt := lit "Segment users into behavioral cohorts for analysis. Create cohort labels based on: signup_month (YYYY-MM format), acquisition_channel, and engagement_level (power_user if actions > 50, active if 10-50, casual if 1-9, dormant if 0). Calculate days_since_signup and days_since_last_active for each user. Filter to only users who signed up in the last 12 months. Output should include user_id, email, cohort_month, acquisition_channel, engagement_level, total_actions, days_active, and lifetime_value if available." |};
    {| tpl_id := lit "anomaly-detection";
       tpl_title := lit "Outlier Detection";
       tpl_description := lit "Find anomalies in transaction data";
       tpl_prompt := lit "Identify potentially fraudulent or anomalous transactions. Flag transactions where: amount is more than 3 standard deviations from the user's average, transaction occurred outside user's typical hours (based on their history), location is significantly different from previous transactions, or multiple transactions occurred within 5 minutes. Add columns: is_anomaly (boolean), anomaly_reasons (comma-separated list), risk_score (0-100). Sort by risk_score descending and filter to only show flagged transactions." |};
    {| tpl_id := lit "funnel-analysis";
       tpl_title := lit "Conversion Funnel";
       tpl_description := lit "Track progression through stages";
       tpl_prompt := lit "Build a conversion funnel analysis from event data. Track users through stages: awareness (visited site) -> interest (viewed product) -> consideration (added to cart) -> intent (started checkout) -> purchase (completed order). For each user, identify their furthest stage reached, time spent in each stage, and drop-off point if they didn't convert. Calculate conversion rates between each stage. Output user-level data with: user_id, email, furthest_stage, converted (boolean), days_to_convert, drop_off_stage, and total_revenue if purchased." |}
  ].

(** The component's initial [useState] values. *)
Definition initial : FormState :=
  {| step := Step1; parsedData := None; rawContent := []; prompt := [] |}.

Definition setStep (st : FormState) (s : Step) : FormState :=
  {| step := s; parsedData := parsedData st; rawContent := rawContent st;
     prompt := prompt st |}.

(** What the user and the [CSVUpload] child can do to the form.
    [isSubmitting] is the prop of that name at the time of the click. *)
Inductive UiEvent :=
| UploadParsed (data : ParsedCSV) (content : JsString)
| ClickContinue
| ClickBack
| ClickTemplate (i : nat)
| TypePrompt (text : JsString)
| ClickBuild (isSubmitting : bool).

(** One event on the rendered form; [None] when the control is not rendered
    or is disabled.
    - the "Continue" button is rendered in step 1 once [parsedData] is set;
    - "Back", the template buttons, the textarea and "Build Pipeline" are
      rendered in step 2;
    - [CSVUpload] reports through [handleDataParsed]. *)
Definition ui_step (st : FormState) (e : UiEvent)
    : option (FormState * list Call) :=
  match e with
  | UploadParsed data content => Some (handleDataParsed st data content, [])
  | ClickContinue =>
      match step st, parsedData st with
      | Step1, Some _ => Some (setStep st Step2, [])
      | _, _ => None
      end
  | ClickBack =>
      match step st with
      | Step2 => Some (setStep st Step1, [])
      | Step1 => None
      end
  | ClickTemplate i =>
      match step st, nth_error PROMPT_TEMPLATES i with
      | Step2, Some t => Some (setPrompt st (tpl_prompt t), [])
      | _, _ => None
      end
  | TypePrompt text =>
      match step st with
      | Step2 => Some (setPrompt st text, [])
      | Step1 => None
      end
  | ClickBuild isSubmitting =>
      match step st with
      | Step2 =>
          if buildDisabled st isSubmitting then None
          else Some (st, handleSubmit st)
      | Step1 => None
      end
  end.

(** A sequence of events from a given form, with the calls made so far. *)
Definition ui_run_from (start : FormState * list Call) (es : list UiEvent)
    : option (FormState * list Call) :=
  fold_left
    (fun acc e =>
       match acc with
       | Some (st, calls) =>
           match ui_step st e with
           | Some (st', new) => Some (st', calls ++ new)
           | None => None
           end
       | None => None
       end)
    es (Some start).

Definition ui_run (es : list UiEvent) : option (FormState * list Call) :=
  ui_run_from (initial, []) es.

(** The dataset and raw content of the latest upload among [es]. *)
Fixpoint last_upload (es : list UiEvent) : option (ParsedCSV * JsString) :=
  match es with
  | [] => None
  | e :: r =>
      match last_upload r with
      | Some u => Some u
      | None =>
          match e with
          | UploadParsed data content => Some (data, content)
          | _ => None
          end
      end
  end.

(** The state holds the latest upload. *)
Definition holds_latest (es : list UiEvent) (st : FormState) : Prop :=
  match last_upload es with
  | Some (data, content) => parsedData st = Some data /\ rawContent st = content
  | None => parsedData st = None /\ rawContent st = []
  end.

(** [a.join(sep)] on an array of strings. *)
Fixpoint join (sep : JsString) (a : list JsString) : JsString :=
  match a with
  | [] => []
  | [x] => x
  | x :: r => x ++ sep ++ join sep r
  end.

(** The column names shown in the data summary:
    [parsedData.headers.slice(0, 5)]. *)
Definition summaryColumns (pd : ParsedCSV) : list JsString :=
  firstn 5 (headers pd).

(** [parsedData.headers.slice(0, 5).join(", ")] *)
Definition summaryNames (pd : ParsedCSV) : JsString :=
  join (lit ", ") (summaryColumns pd).

(** [parsedData.headers.length > 5 && "..."]: [false] renders nothing. *)
Definition summaryEllipsis (pd : ParsedCSV) : JsString :=
  if (5 <? List.length (headers pd))%nat then lit "..." else [].

(** A string that neither starts nor ends with whitespace. *)
Definition starts_clean (s : JsString) : Prop :=
  match s with
  | [] => True
  | c :: _ => isWhiteSpace c = false
  end.

Definition ends_clean (s : JsString) : Prop := starts_clean (rev s).

(** Pairwise distinct strings. *)
Fixpoint distinct (l : list JsString) : bool :=
  match l with
  | [] => true
  | x :: r => negb (existsb (str_eqb x) r) && distinct r
  end.

(** The events of an ordinary use of the form. *)
Definition sample_events : list UiEvent :=
  [ UploadParsed Samples.csv1 (lit "email");
    ClickContinue;
    TypePrompt (lit "  dedupe by email ") ].

End FormUI.

(** ** What [LiveBuilderModal] renders, and its traces *)

Module LiveBuilderView.

Import LiveBuilder.

(** The three dialog titles. *)
Inductive Title := BuiltSuccessfully | BuildFailed | Building.

Definition status_is (s : option FinalStatus) (x : FinalStatus) : bool :=
  match s, x with
  | Some status_success, status_success => true
  | Some status_failed, status_failed => true
  | _, _ => false
  end.

(** The title of the dialog. *)
Definition dialogTitle (m : Modal) : Title :=
  if phaseIsComplete (state m)
  then if status_is (finalStatus (state m)) status_success
       then BuiltSuccessfully else BuildFailed
  else Building.

(** The cancel icon of the header: [!isComplete]. *)
Definition showCancelIcon (m : Modal) : bool :=
  negb (phaseIsComplete (state m)).

(** The "Close" button: [isComplete && state.finalStatus === "failed"]. *)
Definition showCloseButton (m : Modal) : bool :=
  phaseIsComplete (state m) && status_is (finalStatus (state m)) status_failed.

(** The "View Results" button:
    [isComplete && state.finalStatus === "success" && apiResponse]. *)
Definition showViewResults (m : Modal) : bool :=
  phaseIsComplete (state m) &&
  status_is (finalStatus (state m)) status_success &&
  match apiResponse m with Some _ => true | None => false end.

(** The calls of the API among the outward calls. *)
Definition api_calls (cs : list Call) : list (nat * Request) :=
  flat_map (fun c => match c with
                     | ApiCall run req => [(run, req)]
                     | _ => []
                     end) cs.


(** The state shows the response the component holds. *)
Definition result_consistent (m : Modal) : Prop :=
  finalStatus (state m) = Some status_success ->
  exists r,
    apiResponse m = Some r /\
    runId (state m) = run_id r /\
    currentSpec (state m) = pipeline_spec (report r) /\
    currentIteration (state m) = fix_iterations (report r).

(** Every pending timer belongs to a call that is still in flight; the runs
    in flight are distinct and were started by this component. *)
Definition timers_in_flight (m : Modal) : Prop :=
  Forall (fun t => In (t_run t) (inFlight m)) (timeouts m) /\
  NoDup (inFlight m) /\
  Forall (fun run => run < nextRun m) (inFlight m).

(** A run of this component whose call is not in flight. *)
Definition run_over (run : nat) (m : Modal) : Prop :=
  run < nextRun m /\ ~ In run (inFlight m).

(** A closed modal has not started a run. *)
Definition closed_unstarted (m : Modal) : Prop :=
  isOpen m = false -> hasStartedRef m = false.

(** A sequence of [UPDATE]s. *)
Definition updates (s : State) (ps : list Payload) : State :=
  fold_left (fun s p => reducer s (UPDATE p)) ps s.

Definition carries_spec (p : Payload) : bool :=
  match p_currentSpec p with
  | Some _ => true
  | None => false
  end.

End LiveBuilderView.

(** ** [PipelineCard] *)

Module Card.

Import LiveBuilder.

(** [Pipeline], as far as the card reads it. *)
Record Pipeline := {
  id : JsString;
  name : JsString;
  description : option JsString;
  last_run_status : option JsString;
  last_run_at : option JsString;
}.

(** [{ ...pipeline, name: n }] *)
Definition with_name (p : Pipeline) (n : JsString) : Pipeline :=
  {| id := id p; name := n; description := description p;
     last_run_status := last_run_status p; last_run_at := last_run_at p |}.

(** Calls that leave the card. *)
Inductive Call :=
| UpdatePipeline (save : nat) (pipelineId : JsString) (newName : JsString)
| OnUpdate (updated : Pipeline)
| ConsoleError (err : Thrown)
| PreventDefault.

(** What an invocation of [saveChanges] has captured from its render. *)
Record Closure := {
  cl_pipeline : Pipeline;
  cl_editName : JsString;
  cl_hasOnUpdate : bool;
}.

(** The card: props, [useState] cells, the invocations of [saveChanges]
    waiting for [updatePipeline], and the trace of outward calls. *)
Record CardState := {
  pipeline : Pipeline;
  hasOnUpdate : bool;
  isEditing : bool;
  editName : JsString;
  isSaving : bool;
  saving : list (nat * Closure);
  nextSave : nat;
  calls : list Call;
}.

Definition setIsEditing (c : CardState) (b : bool) : CardState :=
  {| pipeline := pipeline c; hasOnUpdate := hasOnUpdate c; isEditing := b;
     editName := editName c; isSaving := isSaving c; saving := saving c;
     nextSave := nextSave c; calls := calls c |}.

Definition setEditName (c : CardState) (n : JsString) : CardState :=
  {| pipeline := pipeline c; hasOnUpdate := hasOnUpdate c;
     isEditing := isEditing c; editName := n; isSaving := isSaving c;
     saving := saving c; nextSave := nextSave c; calls := calls c |}.

Definition setIsSaving (c : CardState) (b : bool) : CardState :=
  {| pipeline := pipeline c; hasOnUpdate := hasOnUpdate c;
     isEditing := isEditing c; editName := editName c; isSaving := b;
     saving := saving c; nextSave := nextSave c; calls := calls c |}.

Definition set_saving (c : CardState) (l : list (nat * Closure)) (n : nat)
    : CardState :=
  {| pipeline := pipeline c; hasOnUpdate := hasOnUpdate c;
     isEditing := isEditing c; editName := editName c;
     isSaving := isSaving c; saving := l; nextSave := n; calls := calls c |}.

Definition set_props (c : CardState) (p : Pipeline) (h : bool) : CardState :=
  {| pipeline := p; hasOnUpdate := h; isEditing := isEditing c;
     editName := editName c; isSaving := isSaving c; saving := saving c;
     nextSave := nextSave c; calls := calls c |}.

Definition emit (c : CardState) (x : Call) : CardState :=
  {| pipeline := pipeline c; hasOnUpdate := hasOnUpdate c;
     isEditing := isEditing c; editName := editName c;
     isSaving := isSaving c; saving := saving c; nextSave := nextSave c;
     calls := calls c ++ [x] |}.

(** The card as first rendered. *)
Definition initial (p : Pipeline) (h : bool) : CardState :=
  {| pipeline := p; hasOnUpdate := h; isEditing := false;
     editName := name p; isSaving := false; saving := []; nextSave := 0;
     calls := [] |}.

Definition startEditing (c : CardState) : CardState :=
  setIsEditing (setEditName c (name (pipeline c))) true.

Definition cancelEditing (c : CardState) : CardState :=
  setEditName (setIsEditing c false) (name (pipeline c)).

(** Statements of the card that may throw. *)
Definition MC (A : Type) : Type := CardState -> Completion A * CardState.

Definition bindC {A B : Type} (x : MC A) (k : A -> MC B) : MC B :=
  fun c =>
    match x c with
    | (Normal a, c1) => k a c1
    | (Throw e, c1) => (Throw e, c1)
    end.

Definition retC {A : Type} (a : A) : MC A := fun c => (Normal a, c).

Definition execC (f : CardState -> CardState) : MC unit :=
  fun c => (Normal tt, f c).

Definition awaitC {A : Type} (settled : Completion A) : MC A :=
  fun c => (settled, c).

Definition try_catch_finallyC {A : Type} (body : MC A)
    (handler : Thrown -> MC A) (finalizer : MC unit) : MC A :=
  fun c =>
    let (r1, c1) := body c in
    let (r2, c2) :=
      match r1 with
      | Normal a => (Normal a, c1)
      | Throw e => handler e c1
      end in
    match finalizer c2 with
    | (Normal _, c3) => (r2, c3)
    | (Throw e, c3) => (Throw e, c3)
    end.

(** [saveChanges] up to its [await]: nothing on a blank name; otherwise the
    saving flag and the call of [updatePipeline]. *)
Definition saveChanges_start (c : CardState) : CardState :=
  if negb (truthy (trim (editName c))) then c
  else
    let c1 := setIsSaving c true in
    let c2 := emit c1 (UpdatePipeline (nextSave c) (id (pipeline c))
                         (trim (editName c))) in
    set_saving c2
      (saving c2 ++ [(nextSave c,
                      {| cl_pipeline := pipeline c;
                         cl_editName := editName c;
                         cl_hasOnUpdate := hasOnUpdate c |})])
      (S (nextSave c)).

(** [saveChanges] from its [await] on: [settled] is what [updatePipeline]
    settled with, [called] what the parent's [onUpdate] does when called. *)
Definition saveChanges_resume (cl : Closure) (settled called : Completion unit)
    : MC unit :=
  try_catch_finallyC
    (bindC (awaitC settled) (fun _ =>
     bindC (if cl_hasOnUpdate cl
            then bindC
                   (execC (fun c =>
                      emit c (OnUpdate (with_name (cl_pipeline cl)
                                          (trim (cl_editName cl))))))
                   (fun _ => awaitC called)
            else retC tt) (fun _ =>
     execC (fun c => setIsEditing c false))))
    (fun err => execC (fun c => emit c (ConsoleError err)))
    (execC (fun c => setIsSaving c false)).

(** [handleKeyDown], on the [key] of the event. *)
Definition handleKeyDown (c : CardState) (key : JsString) : CardState :=
  if str_eqb key (lit "Enter")
  then saveChanges_start (emit c PreventDefault)
  else if str_eqb key (lit "Escape") then cancelEditing c
  else c.

(** The [disabled] attribute of the save button. *)
Definition saveDisabled (c : CardState) : bool :=
  negb (truthy (trim (editName c))) || isSaving c.

(** The [disabled] attribute of the cancel button. *)
Definition cancelDisabled (c : CardState) : bool := isSaving c.

Inductive Event :=
| ClickRename
| TypeName (text : JsString)
| KeyDown (key : JsString)
| ClickSave
| ClickCancel
| SaveSettled (save : nat) (settled called : Completion unit)
| NewProps (p : Pipeline) (h : bool).

Fixpoint take_save (save : nat) (l : list (nat * Closure))
    : option (Closure * list (nat * Closure)) :=
  match l with
  | [] => None
  | (n, cl) :: r =>
      if Nat.eqb n save then Some (cl, r)
      else match take_save save r with
           | Some (cl', r') => Some (cl', (n, cl) :: r')
           | None => None
           end
  end.

(** One event on the card; [None] when the control is not rendered or is
    disabled, or no such save is waiting.  The input and its two buttons are
    rendered while editing; "Rename" is always on the menu. *)
Definition step (c : CardState) (e : Event) : option CardState :=
  match e with
  | ClickRename => Some (startEditing c)
  | TypeName text =>
      if isEditing c then Some (setEditName c text) else None
  | KeyDown key =>
      if isEditing c then Some (handleKeyDown c key) else None
  | ClickSave =>
      if isEditing c && negb (saveDisabled c)
      then Some (saveChanges_start c) else None
  | ClickCancel =>
      if isEditing c && negb (cancelDisabled c)
      then Some (cancelEditing c) else None
  | SaveSettled save settled called =>
      match take_save save (saving c) with
      | Some (cl, rest) =>
          Some (snd (saveChanges_resume cl settled called
                       (set_saving c rest (nextSave c))))
      | None => None
      end
  | NewProps p h => Some (set_props c p h)
  end.

Fixpoint run (c : CardState) (es : list Event) : option CardState :=
  match es with
  | [] => Some c
  | e :: r =>
      match step c e with
      | Some c' => run c' r
      | None => None
      end
  end.

(** The names sent to [updatePipeline], with the pipeline ids. *)
Definition sent (cs : list Call) : list (JsString * JsString) :=
  flat_map (fun x => match x with
                     | UpdatePipeline _ i n => [(i, n)]
                     | _ => []
                     end) cs.

(** What holds of the card however it is used: every name sent is trimmed
    and not empty, every waiting save has sent its name, and every pipeline
    reported through [onUpdate] was sent under its id with the name it
    carries. *)
Definition card_inv (c : CardState) : Prop :=
  Forall (fun s => snd s <> [] /\ trim (snd s) = snd s) (sent (calls c)) /\
  Forall (fun w => In (id (cl_pipeline (snd w)), trim (cl_editName (snd w)))
                     (sent (calls c))) (saving c) /\
  (forall p, In (OnUpdate p) (calls c) -> In (id p, name p) (sent (calls c))).

End Card.

Module CardSamples.

Import Card.

Definition pipeline1 : Pipeline :=
  {| id := lit "pipe-1"; name := lit "Leads";
     description := None; last_run_status := Some (lit "success");
     last_run_at := None |}.

(** The user has typed a new name, padded with spaces. *)
Definition typed : list Event :=
  [ClickRename; TypeName (lit " Hot leads ")].

(** The card while the save of that name is under way. *)
Definition card_saving : CardState :=
  saveChanges_start (setEditName (startEditing (initial pipeline1 true))
                       (lit " Hot leads ")).

Definition closure1 : Closure :=
  {| cl_pipeline := pipeline1; cl_editName := lit " Hot leads ";
     cl_hasOnUpdate := true |}.

End CardSamples.

(** ** The modal under its parent: the props may change *)

Module LiveBuilderHost.

Import LiveBuilder LiveBuilderView.

Definition set_props (m : Modal) (p c : JsString) : Modal :=
  {| isOpen := isOpen m; prompt := p; csvBase64 := c;
     state := state m; apiResponse := apiResponse m; error := error m;
     abortControllerRef := abortControllerRef m;
     hasStartedRef := hasStartedRef m; timeouts := timeouts m;
     inFlight := inFlight m; nextRun := nextRun m; calls := calls m |}.

(** The component together with what React keeps for the run effect:
    whether its last execution returned a cleanup. *)
Record Hosted := {
  modal : Modal;
  cleanupRegistered : bool;
}.

Inductive HostEvent :=
| Base (e : Event)
| EvProps (prompt csvBase64 : JsString).

(** The cleanup of the run effect, run before the effect is executed again
    when one was returned. *)
Definition runCleanup (h : Hosted) : Modal :=
  if cleanupRegistered h then abort (modal h) else modal h.

(** Whether the run effect, executed on [m], gets past its guard
    [if (!isOpen || hasStartedRef.current) return;] and so returns a
    cleanup. *)
Definition effectStarts (m : Modal) : bool :=
  negb (negb (isOpen m) || hasStartedRef m).

(** One turn of the event loop under the parent.  The run effect depends on
    [isOpen], [prompt] and [csvBase64] (and the stable [simulatePhases]),
    the reset effect on [isOpen] alone; an effect is executed again, after
    its cleanup, when one of its dependencies has changed. *)
Definition host_step (h : Hosted) (e : HostEvent) : option Hosted :=
  match e with
  | Base EvOpen =>
      if isOpen (modal h) then None
      else
        let m1 := set_isOpen (runCleanup h) true in
        Some {| modal := resetEffect (runEffect m1);
                cleanupRegistered := effectStarts m1 |}
  | Base EvClose =>
      if isOpen (modal h) then
        let m1 := set_isOpen (runCleanup h) false in
        Some {| modal := resetEffect (runEffect m1);
                cleanupRegistered := effectStarts m1 |}
      else None
  | Base e' =>
      match step (modal h) e' with
      | Some m' => Some {| modal := m';
                           cleanupRegistered := cleanupRegistered h |}
      | None => None
      end
  | EvProps p c =>
      if str_eqb p (prompt (modal h)) && str_eqb c (csvBase64 (modal h))
      then Some h
      else
        let m1 := set_props (runCleanup h) p c in
        Some {| modal := runEffect m1;
                cleanupRegistered := effectStarts m1 |}
  end.

Fixpoint host_run (h : Hosted) (es : list HostEvent) : option Hosted :=
  match es with
  | [] => Some h
  | e :: r =>
      match host_step h e with
      | Some h' => host_run h' r
      | None => None
      end
  end.

(** The component as mounted closed. *)
Definition host_mount (p c : JsString) : Hosted :=
  {| modal := mount p c; cleanupRegistered := false |}.

(** The requests to expect: one for every opening, with the props in force
    at that opening. *)
Fixpoint requests_expected (p c : JsString) (es : list HostEvent)
    : list Request :=
  match es with
  | [] => []
  | Base EvOpen :: r =>
      {| req_prompt := p; req_format := lit "csv";
         req_content_base64 := c; req_max_fix_iters := 3 |}
      :: requests_expected p c r
  | EvProps p' c' :: r => requests_expected p' c' r
  | Base _ :: r => requests_expected p c r
  end.

(** The started flag follows the modal's being open. *)
Definition started_iff_open (m : Modal) : Prop :=
  hasStartedRef m = isOpen m.

End LiveBuilderHost.

(** * Properties *)

(** ** [trim] *)

Module JsFacts.

Lemma trimStart_nil_iff (s : JsString) :
  trimStart s = [] <-> whitespace_only s.
Proof.
  induction s as [|c r IH]; simpl.
  - split; [constructor | reflexivity].
  - destruct (isWhiteSpace c) eqn:Hc.
    + rewrite IH. split.
      * intro H. constructor; assumption.
      * intro H. inversion H; assumption.
    + split; [discriminate|].
      intro H. inversion H. congruence.
Qed.

Lemma trim_whitespace_only (s : JsString) :
  whitespace_only s -> trim s = [].
Proof.
  intro H. unfold trim, trimEnd.
  apply trimStart_nil_iff in H. rewrite H. reflexivity.
Qed.

Lemma trimStart_suffix (s : JsString) :
  exists p, s = p ++ trimStart s /\ whitespace_only p.
Proof.
  induction s as [|c r [p [Hp Hw]]]; simpl.
  - exists []. split; [reflexivity | constructor].
  - destruct (isWhiteSpace c) eqn:Hc.
    + exists (c :: p). split.
      * simpl. f_equal. exact Hp.
      * constructor; assumption.
    + exists []. split; [reflexivity | constructor].
Qed.

Lemma whitespace_only_app (a b : JsString) :
  whitespace_only a -> whitespace_only b -> whitespace_only (a ++ b).
Proof. unfold whitespace_only. intros. apply Forall_app. split; assumption. Qed.

Lemma whitespace_only_rev (a : JsString) :
  whitespace_only a -> whitespace_only (rev a).
Proof. unfold whitespace_only. apply Forall_rev. Qed.

Lemma trim_nil_iff (s : JsString) :
  trim s = [] <-> whitespace_only s.
Proof.
  split; [| apply trim_whitespace_only].
  unfold trim, trimEnd. intro H.
  assert (Hr : trimStart (rev (trimStart s)) = []).
  { apply (f_equal (@rev N)) in H. rewrite rev_involutive in H. exact H. }
  apply trimStart_nil_iff in Hr.
  apply whitespace_only_rev in Hr. rewrite rev_involutive in Hr.
  destruct (trimStart_suffix s) as [p [Hp Hw]].
  rewrite Hp. apply whitespace_only_app; assumption.
Qed.

Lemma truthy_trim_false_iff (s : JsString) :
  truthy (trim s) = false <-> whitespace_only s.
Proof.
  rewrite <- trim_nil_iff.
  destruct (trim s); simpl; split; congruence.
Qed.

End JsFacts.

(** ** [PipelineForm] *)

Module FormSpec.

Import Form JsFacts.

Lemma handleSubmit_cases (st : FormState) :
  handleSubmit st = [] \/
  exists pd,
    parsedData st = Some pd /\ truthy (trim (prompt st)) = true /\
    handleSubmit st =
      [OnSubmit {| sd_prompt := trim (prompt st);
                   sd_csvContent := rawContent st;
                   sd_parsedData := pd |}].
Proof.
  unfold handleSubmit.
  destruct (parsedData st) as [pd|]; [| left; reflexivity].
  destruct (truthy (trim (prompt st))) eqn:Ht; simpl.
  - right. exists pd. repeat split.
  - left. reflexivity.
Qed.

(** C9. [handleSubmit] submits only validated input: when the parsed dataset
    is null or the prompt is empty or consists of whitespace only, it calls
    [onSubmit] not at all; and whenever it does call [onSubmit], the prompt
    it passes is the trimmed prompt text (with the raw content and the parsed
    dataset of the form). *)
Theorem handleSubmit_only_validated (st : FormState) :
  (parsedData st = None \/ whitespace_only (prompt st) ->
   handleSubmit st = []) /\
  (forall d, In (OnSubmit d) (handleSubmit st) ->
     sd_prompt d = trim (prompt st) /\
     sd_csvContent d = rawContent st /\
     parsedData st = Some (sd_parsedData d)).
Proof.
  split.
  - intros [Hnone | Hws]; unfold handleSubmit.
    + rewrite Hnone. reflexivity.
    + apply truthy_trim_false_iff in Hws.
      destruct (parsedData st); [rewrite Hws |]; reflexivity.
  - intros d Hin.
    destruct (handleSubmit_cases st) as [Hnil | [pd [Hpd [_ Hcall]]]].
    + rewrite Hnil in Hin. destruct Hin.
    + rewrite Hcall in Hin. destruct Hin as [Heq | []].
      injection Heq as <-. simpl. auto.
Qed.

Lemma handleSubmit_only_validated_witness :
  handleSubmit Samples.form_no_data = [] /\
  handleSubmit Samples.form_blank = [] /\
  (forall d, In (OnSubmit d) (handleSubmit Samples.form_ready) ->
     sd_prompt d = lit "dedupe by email").
Proof.
  split; [| split].
  - apply (proj1 (handleSubmit_only_validated Samples.form_no_data)).
    left. reflexivity.
  - apply (proj1 (handleSubmit_only_validated Samples.form_blank)).
    right. repeat constructor.
  - intros d Hin.
    apply (proj2 (handleSubmit_only_validated Samples.form_ready)) in Hin.
    destruct Hin as [Hp _]. exact Hp.
Defined.

(** With a dataset and a prompt that is not blank, [handleSubmit] calls
    [onSubmit] exactly once. *)
Lemma handleSubmit_submits (st : FormState) (pd : Types.ParsedCSV) :
  parsedData st = Some pd ->
  ~ whitespace_only (prompt st) ->
  handleSubmit st =
    [OnSubmit {| sd_prompt := trim (prompt st);
                 sd_csvContent := rawContent st;
                 sd_parsedData := pd |}].
Proof.
  intros Hpd Hws. unfold handleSubmit. rewrite Hpd.
  destruct (truthy (trim (prompt st))) eqn:Ht; [reflexivity |].
  apply truthy_trim_false_iff in Ht. contradiction.
Qed.

(** The button is disabled on a blank prompt, so a click submits nothing
    there either. *)
Lemma clickBuild_blank (st : FormState) (isSubmitting : bool) :
  whitespace_only (prompt st) -> clickBuild st isSubmitting = [].
Proof.
  intro Hws. unfold clickBuild, buildDisabled.
  apply truthy_trim_false_iff in Hws. rewrite Hws. reflexivity.
Qed.

End FormSpec.

(** ** The reducer and the live builder *)

Module LiveBuilderSpec.

Import LiveBuilder.

(** *** The reducer *)




(** An [UPDATE] whose payload gives [currentSpec: null], as the one
    dispatched when the modal closes does, is taken for one that gives a
    specification: applied to the state of a run that ended with a
    specification and no previous one, it writes the old current
    specification into [previousSpec]. *)
Lemma update_without_spec_changes_previousSpec :
  p_currentSpec (payload_of_state (getInitialState (lit "pending")))
  = Some None /\
  currentSpec (state Samples.modal_settled) = Some Samples.spec1 /\
  previousSpec (state Samples.modal_settled) = None /\
  previousSpec
    (reducer (state Samples.modal_settled)
       (UPDATE (payload_of_state (getInitialState (lit "pending")))))
  = Some Samples.spec1.
Proof. repeat split. Qed.

(** The payload's own [previousSpec] key never reaches the state. *)
Lemma reducer_ignores_payload_previousSpec (s : State) (p : Payload)
    (x : option (option Types.PipelineSpec)) :
  reducer s (UPDATE
    {| p_runId := p_runId p; p_phase := p_phase p;
       p_currentIteration := p_currentIteration p;
       p_maxIterations := p_maxIterations p;
       p_currentSpec := p_currentSpec p;
       p_validationErrors := p_validationErrors p;
       p_isComplete := p_isComplete p;
       p_finalStatus := p_finalStatus p;
       p_previousSpec := x |}) = reducer s (UPDATE p).
Proof. reflexivity. Qed.

(** [SET_PREVIOUS_SPEC] writes [previousSpec] and nothing else. *)
Lemma reducer_set_previous_spec (s : State) (x : option Types.PipelineSpec) :
  previousSpec (reducer s (SET_PREVIOUS_SPEC x)) = x /\
  currentSpec (reducer s (SET_PREVIOUS_SPEC x)) = currentSpec s /\
  phase (reducer s (SET_PREVIOUS_SPEC x)) = phase s /\
  finalStatus (reducer s (SET_PREVIOUS_SPEC x)) = finalStatus s.
Proof. repeat split. Qed.

(** The component dispatches [UPDATE] only: a turn of the event loop leaves
    the state or applies one [UPDATE] to it. *)
Lemma step_dispatches_update (m m' : Modal) (e : Event) :
  step m e = Some m' ->
  state m' = state m \/ exists p, state m' = reducer (state m) (UPDATE p).
Proof.
  destruct e; simpl.
  - destruct (isOpen m); [discriminate |].
    intro H. injection H as <-. left.
    unfold runEffect. simpl. destruct (hasStartedRef m); reflexivity.
  - destruct (isOpen m) eqn:Ho; [| discriminate].
    intro H. injection H as <-. right.
    exists (payload_of_state (getInitialState (lit "pending"))).
    unfold abort. destruct (abortControllerRef m); reflexivity.
  - destruct (take_timer run (timeouts m)) as [[t rest]|]; [| discriminate].
    intro H. injection H as <-. right. eexists. reflexivity.
  - destruct (mem_run run (inFlight m)); [| discriminate].
    intro H. injection H as <-. right.
    destruct settled; eexists; reflexivity.
  - intro H. injection H as <-. left.
    unfold handleCancel, abort. destruct (abortControllerRef m); reflexivity.
  - intro H. injection H as <-. left.
    unfold handleViewResults. destruct (apiResponse m); reflexivity.
Qed.

(** *** [maxIterations] *)

Lemma step_keeps_maxIterations (m m' : Modal) (e : Event) :
  step m e = Some m' -> e <> EvClose ->
  maxIterations (state m') = maxIterations (state m).
Proof.
  destruct e; simpl; intros H Hne.
  - destruct (isOpen m); [discriminate |].
    injection H as <-.
    unfold runEffect. simpl. destruct (hasStartedRef m); reflexivity.
  - contradiction Hne. reflexivity.
  - destruct (take_timer run (timeouts m)) as [[t rest]|]; [| discriminate].
    injection H as <-. reflexivity.
  - destruct (mem_run run (inFlight m)); [| discriminate].
    injection H as <-. destruct settled; reflexivity.
  - injection H as <-.
    unfold handleCancel, abort. destruct (abortControllerRef m); reflexivity.
  - injection H as <-.
    unfold handleViewResults. destruct (apiResponse m); reflexivity.
Qed.

Lemma close_resets_maxIterations (m m' : Modal) :
  step m EvClose = Some m' -> maxIterations (state m') = 3%N.
Proof.
  simpl. destruct (isOpen m); [| discriminate].
  intro H. injection H as <-.
  unfold abort. destruct (abortControllerRef m); reflexivity.
Qed.

Lemma run_events_maxIterations (es : list Event) (m m' : Modal) :
  maxIterations (state m) = 3%N ->
  run_events m es = Some m' ->
  maxIterations (state m') = 3%N.
Proof.
  revert m. induction es as [|e r IH]; intros m H3 Hrun; simpl in Hrun.
  - injection Hrun as <-. exact H3.
  - destruct (step m e) as [m1|] eqn:Hstep; [| discriminate].
    apply (IH m1); [| exact Hrun].
    destruct e;
      try (erewrite step_keeps_maxIterations;
           [exact H3 | exact Hstep | discriminate]).
    eapply close_resets_maxIterations. exact Hstep.
Qed.

(** C5. [maxIterations] is fixed to 3 when the run's state is created, no
    turn of the event loop within a run changes it (the closing of the modal
    writes the same 3 again), and so it is 3 in every state the component
    reaches; the request sent to the API asks for the same bound. *)
Theorem maxIterations_immutable :
  (forall runId, maxIterations (getInitialState runId) = 3%N) /\
  (forall m, req_max_fix_iters (request m) = 3%N) /\
  (forall m e m', step m e = Some m' -> e <> EvClose ->
     maxIterations (state m') = maxIterations (state m)) /\
  (forall prompt csv es m,
     run_events (mount prompt csv) es = Some m ->
     maxIterations (state m) = 3%N).
Proof.
  split; [reflexivity |].
  split; [reflexivity |].
  split.
  - intros m e m'. apply step_keeps_maxIterations.
  - intros prompt csv es m. apply run_events_maxIterations. reflexivity.
Qed.


Lemma maxIterations_immutable_witness :
  exists m,
    run_events Samples.modal0
      [EvOpen; EvTimeout 0;
       EvSettle 0 (Normal Samples.response_errors) Samples.now1] = Some m /\
    maxIterations (state m) = 3%N.
Proof.
  eexists. split; [vm_compute; reflexivity |].
  destruct maxIterations_immutable as [_ [_ [_ H]]].
  apply (H (lit "dedupe by email") (lit "ZW1haWwK")
           [EvOpen; EvTimeout 0;
            EvSettle 0 (Normal Samples.response_errors) Samples.now1]).
  vm_compute. reflexivity.
Defined.

(** *** [runPipeline] once the API call has settled *)

(** What [runPipeline_resume] leaves behind, case by case. *)
Lemma resume_returned (run : nat) (r : Response) (now : JsString) (m : Modal) :
  runPipeline_resume run (Normal r) now m =
    (Normal tt,
     cleanupPhases run
       (dispatch (setApiResponse m (Some r)) (UPDATE (successPayload r now)))).
Proof. reflexivity. Qed.

Lemma resume_thrown (run : nat) (err : Thrown) (now : JsString) (m : Modal) :
  runPipeline_resume run (Throw err) now m =
    (Normal tt,
     cleanupPhases run
       (dispatch (setError (emit m (ConsoleError err)) (Some (errorMessage err)))
          (UPDATE failedPayload))).
Proof. reflexivity. Qed.

(** Whatever the API call settles with, the rest of [runPipeline] completes
    normally (nothing it catches escapes, and neither the handler nor the
    finalizer throws) and leaves a terminal state: a call that threw yields
    [finalStatus = failed] with the message recorded, a call that returned
    yields [finalStatus = success] with the data of its report. *)
Theorem runPipeline_structured_result (run : nat)
    (settled : Completion Response) (now : JsString) (m : Modal) :
  fst (runPipeline_resume run settled now m) = Normal tt /\
  let s' := state (snd (runPipeline_resume run settled now m)) in
  isComplete s' = true /\
  phaseIsComplete s' = true /\
  (finalStatus s' = Some status_success \/
   finalStatus s' = Some status_failed) /\
  match settled with
  | Throw err =>
      finalStatus s' = Some status_failed /\ phase s' = failed /\
      error (snd (runPipeline_resume run settled now m))
        = Some (errorMessage err) /\
      runId s' = runId (state m) /\
      currentIteration s' = currentIteration (state m) /\
      currentSpec s' = currentSpec (state m) /\
      validationErrors s' = validationErrors (state m)
  | Normal r =>
      finalStatus s' = Some status_success /\ phase s' = complete /\
      apiResponse (snd (runPipeline_resume run settled now m)) = Some r /\
      runId s' = run_id r /\
      currentIteration s' = fix_iterations (report r) /\
      currentSpec s' = pipeline_spec (report r) /\
      flat_map errors (validationErrors s') = validation_errors (report r)
  end.
Proof.
  destruct settled as [r | err].
  - rewrite resume_returned. simpl.
    repeat split; auto.
    destruct (validation_errors (report r)); simpl;
      rewrite ?app_nil_r; reflexivity.
  - rewrite resume_thrown. simpl. repeat split; auto.
Qed.




(** *** Closing the modal *)

(** What the closing of the modal does: the refs and cells are cleared and
    the state is the initial one, except that [previousSpec] takes the
    specification that was current. *)
Lemma close_reset (m m' : Modal) :
  step m EvClose = Some m' ->
  isOpen m' = false /\ hasStartedRef m' = false /\
  apiResponse m' = None /\ error m' = None /\
  state m' =
    reducer (getInitialState (lit "pending"))
      (SET_PREVIOUS_SPEC (currentSpec (state m))).
Proof.
  simpl. destruct (isOpen m); [| discriminate].
  intro H. injection H as <-.
  unfold abort. destruct (abortControllerRef m); repeat split.
Qed.

Lemma close_reset_without_spec (m m' : Modal) :
  step m EvClose = Some m' ->
  currentSpec (state m) = None ->
  state m' = getInitialState (lit "pending").
Proof.
  intros H Hc. apply close_reset in H.
  destruct H as [_ [_ [_ [_ ->]]]]. rewrite Hc. reflexivity.
Qed.

(** C10 at the failing input: after a run that ended with a specification,
    closing the modal leaves that specification in [previousSpec], so the
    state is not the initial state. *)
Lemma close_after_success_keeps_previousSpec :
  exists m m',
    run_events Samples.modal0
      [EvOpen; EvSettle 0 (Normal Samples.response_clean) Samples.now1]
    = Some m /\
    step m EvClose = Some m' /\
    previousSpec (state m') = Some Samples.spec1 /\
    state m' <> getInitialState (lit "pending").
Proof.
  eexists. eexists.
  split; [vm_compute; reflexivity |].
  split; [vm_compute; reflexivity |].
  split; [reflexivity | discriminate].
Qed.

(** *** Cancellation *)

(** C6 (as the code has it). [handleCancel] calls [abort] on the run's
    controller, if there is one, and calls [onCancel] once; it dispatches
    nothing, so the builder state, phase and final status included, is what
    it was. *)
Theorem handleCancel_notifies_only (m : Modal) :
  step m EvCancel = Some (handleCancel m) /\
  state (handleCancel m) = state m /\
  calls (handleCancel m) = calls m ++ [OnCancel] /\
  abortControllerRef (handleCancel m) =
    match abortControllerRef m with
    | Some _ => Some {| aborted := true |}
    | None => None
    end /\
  apiResponse (handleCancel m) = apiResponse m /\
  error (handleCancel m) = error m.
Proof.
  split; [reflexivity |].
  unfold handleCancel, abort.
  destruct (abortControllerRef m) eqn:Hc; simpl; rewrite ?Hc;
    repeat split; reflexivity.
Qed.

(** C6 as stated fails: cancelling a run in phase [analyzing] leaves it in
    that phase, with no final status. *)
Lemma cancel_leaves_run_in_progress :
  phaseIsComplete (state Samples.modal_opened) = false /\
  exists m',
    step Samples.modal_opened EvCancel = Some m' /\
    phase (state m') = analyzing /\
    phaseIsComplete (state m') = false /\
    finalStatus (state m') = None.
Proof.
  split; [reflexivity |].
  eexists. split; [vm_compute; reflexivity |].
  repeat split.
Qed.

Lemma handleCancel_notifies_state (m : Modal) :
  state (handleCancel m) = state m /\
  isOpen (handleCancel m) = isOpen m /\
  inFlight (handleCancel m) = inFlight m /\
  timeouts (handleCancel m) = timeouts m.
Proof.
  unfold handleCancel, abort.
  destruct (abortControllerRef m); repeat split.
Qed.

(** *** Sessions *)

Lemma take_timer_own (run k : nat) :
  k < 5 ->
  take_timer run (timers_of run (skipn k phases)) =
    Some ({| t_run := run;
             t_phase := simulated (S k);
             t_delay := nth k (map snd phases) 0%N |},
          timers_of run (skipn (S k) phases)).
Proof.
  intro Hk.
  do 5 (destruct k as [|k];
        [simpl; rewrite Nat.eqb_refl; reflexivity |]).
  lia.
Qed.

Lemma take_timer_other (run run' : nat) (l : list (AgentPhase * N)) :
  run' <> run -> take_timer run' (timers_of run l) = None.
Proof.
  intro Hne. unfold timers_of.
  induction l as [|pd l IH]; simpl; [reflexivity |].
  destruct (Nat.eqb_spec run run') as [Heq | _].
  - contradiction Hne. symmetry. exact Heq.
  - rewrite IH. reflexivity.
Qed.

Lemma take_timer_spent (run run' : nat) :
  take_timer run' (timers_of run (skipn 5 phases)) = None.
Proof. reflexivity. Qed.

Lemma cleanup_own_timers (run : nat) (l : list (AgentPhase * N)) :
  filter (fun t => negb (Nat.eqb (t_run t) run)) (timers_of run l) = [].
Proof.
  unfold timers_of.
  induction l as [|pd l IH]; simpl; [reflexivity |].
  rewrite Nat.eqb_refl. simpl. exact IH.
Qed.

Lemma mem_run_single (run run' : nat) :
  mem_run run' [run] = true -> run' = run.
Proof.
  unfold mem_run. simpl. rewrite orb_false_r.
  apply Nat.eqb_eq.
Qed.

Lemma simulated_not_terminal (k : nat) : terminal (simulated k) = false.
Proof.
  unfold simulated.
  do 7 (destruct k as [|k]; [reflexivity |]).
  simpl. destruct k; reflexivity.
Qed.

Lemma simulated_advance (k : nat) :
  k < 5 ->
  simulated (S k) = simulated k \/
  is_next (simulated k) (simulated (S k)) = true.
Proof.
  intro Hk.
  destruct k as [|k]; [left; reflexivity |].
  do 4 (destruct k as [|k]; [right; reflexivity |]).
  lia.
Qed.

(** The opening of a fresh modal starts the run. *)
Lemma open_fresh (m0 m1 : Modal) :
  fresh m0 -> step m0 EvOpen = Some m1 -> session_inv m1.
Proof.
  intros [Ho [Hs [Ht [Hf [Hp Hfs]]]]] Hstep.
  simpl in Hstep. rewrite Ho in Hstep. injection Hstep as <-.
  unfold runEffect. simpl. rewrite Hs. simpl.
  apply inv_running with (run := nextRun m0) (k := 0); simpl.
  - lia.
  - reflexivity.
  - rewrite Hf. reflexivity.
  - rewrite Ht. reflexivity.
  - exact Hp.
  - exact Hfs.
Qed.

Lemma session_inv_step (m m' : Modal) (e : Event) :
  session_inv m -> e <> EvClose -> step m e = Some m' ->
  session_inv m' /\ state_move m m' e.
Proof.
  intros Hinv Hne Hstep.
  destruct e as [ | | run' | run' settled now | | ]; simpl in Hstep.
  - (* EvOpen: the modal is open already *)
    destruct Hinv as [run k _ Ho _ _ _ _ | Ho _ _ _];
      rewrite Ho in Hstep; discriminate.
  - contradiction Hne. reflexivity.
  - (* a timer fires *)
    destruct Hinv as [run k Hk Ho Hf Ht Hp Hfs | Ho Hf Ht Hterm].
    + rewrite Ht in Hstep.
      destruct (Nat.eq_dec run' run) as [-> | Hother].
      * destruct (Nat.eq_dec k 5) as [-> | Hk5].
        -- rewrite take_timer_spent in Hstep. discriminate.
        -- rewrite take_timer_own in Hstep by lia.
           injection Hstep as <-. split.
           ++ apply inv_running with (run := run) (k := S k); simpl;
                try assumption; try reflexivity. lia.
           ++ apply move_timer; simpl; try assumption.
              ** exists run. reflexivity.
              ** rewrite Hp. apply simulated_not_terminal.
              ** apply simulated_not_terminal.
              ** rewrite Hp. apply simulated_advance. lia.
      * rewrite take_timer_other in Hstep by assumption. discriminate.
    + rewrite Ht in Hstep. discriminate.
  - (* the API call settles *)
    destruct Hinv as [run k Hk Ho Hf Ht Hp Hfs | Ho Hf Ht Hterm].
    + rewrite Hf in Hstep.
      destruct (mem_run run' [run]) eqn:Hmem; [| discriminate].
      apply mem_run_single in Hmem. subst run'.
      injection Hstep as <-. simpl. rewrite Nat.eqb_refl.
      destruct settled as [r | err].
      * rewrite resume_returned. split.
        -- apply inv_settled; simpl; try assumption; try reflexivity.
           ++ rewrite Ht. apply cleanup_own_timers.
           ++ left. split; reflexivity.
        -- apply move_settle; simpl; try assumption; try reflexivity.
           ++ rewrite Hp. apply simulated_not_terminal.
           ++ left. split; reflexivity.
      * rewrite resume_thrown. split.
        -- apply inv_settled; simpl; try assumption; try reflexivity.
           ++ rewrite Ht. apply cleanup_own_timers.
           ++ right. split; reflexivity.
        -- apply move_settle; simpl; try assumption; try reflexivity.
           ++ rewrite Hp. apply simulated_not_terminal.
           ++ right. split; reflexivity.
    + rewrite Hf in Hstep. discriminate.
  - (* handleCancel *)
    injection Hstep as <-.
    destruct (handleCancel_notifies_state m) as [Hst Hrest].
    split; [| apply move_none; exact Hst].
    destruct Hrest as [Ho [Hf Ht]].
    destruct Hinv as [run k Hk Ho' Hf' Ht' Hp Hfs | Ho' Hf' Ht' Hterm].
    + apply inv_running with (run := run) (k := k); congruence.
    + apply inv_settled; try congruence.
      all: rewrite Hst; exact Hterm.
  - (* handleViewResults *)
    injection Hstep as <-.
    assert (Hsame : state (handleViewResults m) = state m /\
                    isOpen (handleViewResults m) = isOpen m /\
                    inFlight (handleViewResults m) = inFlight m /\
                    timeouts (handleViewResults m) = timeouts m).
    { unfold handleViewResults. destruct (apiResponse m); repeat split. }
    destruct Hsame as [Hst [Ho [Hf Ht]]].
    split; [| apply move_none; exact Hst].
    destruct Hinv as [run k Hk Ho' Hf' Ht' Hp Hfs | Ho' Hf' Ht' Hterm].
    + apply inv_running with (run := run) (k := k); congruence.
    + apply inv_settled; try congruence.
      all: rewrite Hst; exact Hterm.
Qed.

Lemma session_invariant (m : Modal) : session m -> session_inv m.
Proof.
  induction 1 as [m0 m1 Hfresh Hopen | m e m' _ IH Hne Hstep].
  - exact (open_fresh Hfresh Hopen).
  - exact (proj1 (session_inv_step IH Hne Hstep)).
Qed.

Lemma session_move (m m' : Modal) (e : Event) :
  session m -> e <> EvClose -> step m e = Some m' -> state_move m m' e.
Proof.
  intros Hs Hne Hstep.
  exact (proj2 (session_inv_step (session_invariant Hs) Hne Hstep)).
Qed.

Lemma phaseIsComplete_terminal (s : State) :
  phaseIsComplete s = terminal (phase s).
Proof. reflexivity. Qed.

(** While the call of a session is in flight, its settling is a turn the
    event loop can take, and it sets the final status. *)
Lemma session_settle_enabled (m : Modal) :
  session m -> finalStatus (state m) = None ->
  exists run,
    inFlight m = [run] /\
    forall settled now,
      exists m',
        step m (EvSettle run settled now) = Some m' /\
        finalStatus (state m') <> None.
Proof.
  intros Hs Hnone.
  destruct (session_invariant Hs) as [run k _ _ Hf _ _ _ | _ _ _ Hterm].
  - exists run. split; [exact Hf |].
    intros settled now. simpl. rewrite Hf. simpl.
    rewrite Nat.eqb_refl. simpl. eexists. split; [reflexivity |].
    destruct settled as [r | err]; simpl; discriminate.
  - destruct Hterm as [[_ H] | [_ H]]; congruence.
Qed.

(** Where fresh modals come from: the mounted one is fresh, and so is the
    modal after a close at which no timer and no call was pending. *)
Lemma fresh_mount (p c : JsString) : fresh (mount p c).
Proof. repeat split. Qed.

Lemma fresh_after_quiet_close (m m' : Modal) :
  step m EvClose = Some m' ->
  timeouts m = [] -> inFlight m = [] -> fresh m'.
Proof.
  simpl. destruct (isOpen m); [| discriminate].
  intros H Ht Hf. injection H as <-.
  unfold fresh, abort.
  destruct (abortControllerRef m); simpl; rewrite Ht, Hf; repeat split.
Qed.

Lemma open_fresh_state (m0 m1 : Modal) :
  fresh m0 -> step m0 EvOpen = Some m1 ->
  finalStatus (state m1) = None /\ phase (state m1) = analyzing.
Proof.
  intros [Ho [Hs [_ [_ [Hp Hfs]]]]] Hstep.
  simpl in Hstep. rewrite Ho in Hstep. injection Hstep as <-.
  unfold runEffect. simpl. rewrite Hs. simpl. split; assumption.
Qed.

(** C2 (as the code has it). A run is started by opening a fresh modal:
    closed, no timer and no call of an earlier run pending, phase
    [analyzing] and final status null, as the modal is when mounted and
    after every close at which nothing was pending.  Its [finalStatus]
    starts as null.  While the modal stays open, a turn of the event loop
    sets it at most once, from null to [success] or [failed], and only when
    the API call settles, which also makes the phase terminal; as long as
    it is null the call is in flight and its settling sets it; once it is
    set, no turn changes the state until the modal is closed. *)
Theorem finalStatus_set_once :
  (forall runId, finalStatus (getInitialState runId) = None) /\
  (forall p c, fresh (mount p c)) /\
  (forall m m',
     step m EvClose = Some m' ->
     timeouts m = [] -> inFlight m = [] -> fresh m') /\
  (forall m0 m1,
     fresh m0 -> step m0 EvOpen = Some m1 ->
     finalStatus (state m1) = None) /\
  (forall m e m',
     session m -> e <> EvClose -> step m e = Some m' ->
     (finalStatus (state m) = None ->
        finalStatus (state m') = None \/
        (is_settle e = true /\
         (finalStatus (state m') = Some status_success \/
          finalStatus (state m') = Some status_failed) /\
         phaseIsComplete (state m') = true)) /\
     (finalStatus (state m) <> None -> state m' = state m)) /\
  (forall m,
     session m -> finalStatus (state m) = None ->
     exists run,
       inFlight m = [run] /\
       forall settled now,
         exists m',
           step m (EvSettle run settled now) = Some m' /\
           finalStatus (state m') <> None).
Proof.
  split; [reflexivity |].
  split; [exact fresh_mount |].
  split; [exact fresh_after_quiet_close |].
  split; [intros m0 m1 Hf Ho; exact (proj1 (open_fresh_state Hf Ho)) |].
  split; [| exact session_settle_enabled].
  intros m e m' Hs Hne Hstep.
  destruct (session_move Hs Hne Hstep)
    as [Hsame | _ Hfs Hfs' _ _ _ | Hset Hfs _ Hend].
  - split; intro H; [left; rewrite Hsame; exact H | exact Hsame].
  - split; intro H; [left; exact Hfs' | contradiction].
  - split; intro H; [| contradiction].
    right. split; [exact Hset |].
    rewrite phaseIsComplete_terminal.
    destruct Hend as [[-> ->] | [-> ->]]; auto.
Qed.

Lemma finalStatus_set_once_witness :
  finalStatus (state Samples.modal_settled) = None \/
  (is_settle (EvSettle 0 (Normal Samples.response_clean) Samples.now1) = true /\
   (finalStatus (state Samples.modal_settled) = Some status_success \/
    finalStatus (state Samples.modal_settled) = Some status_failed) /\
   phaseIsComplete (state Samples.modal_settled) = true).
Proof.
  assert (Hs : session Samples.modal_opened).
  { apply session_open with (m0 := Samples.modal0).
    - repeat split.
    - vm_compute. reflexivity. }
  destruct finalStatus_set_once as [_ [_ [_ [_ [H _]]]]].
  apply (H Samples.modal_opened
           (EvSettle 0 (Normal Samples.response_clean) Samples.now1)
           Samples.modal_settled Hs).
  - discriminate.
  - vm_compute. reflexivity.
  - reflexivity.
Defined.

(** C2 as stated fails: the closing of the modal mutates the state of a
    terminated run; [finalStatus] goes back to null. *)
Lemma close_mutates_terminated_run :
  exists m m',
    run_events Samples.modal0
      [EvOpen; EvSettle 0 (Normal Samples.response_clean) Samples.now1]
    = Some m /\
    finalStatus (state m) = Some status_success /\
    phaseIsComplete (state m) = true /\
    step m EvClose = Some m' /\
    finalStatus (state m') = None /\
    state m' <> state m.
Proof.
  eexists. eexists.
  split; [vm_compute; reflexivity |].
  split; [reflexivity |].
  split; [reflexivity |].
  split; [vm_compute; reflexivity |].
  split; [reflexivity | discriminate].
Qed.

(** C3 (as the code has it). A run is started by opening a fresh modal
    (closed, no timer and no call of an earlier run pending, phase
    [analyzing] and final status null), so its phase starts at
    [analyzing].  While the modal stays open, a turn of the event loop
    keeps the phase, or moves it to the next phase of analyzing,
    generating, validating, executing, evaluating (a timer), or moves it
    from whichever of these has been reached to [complete] or [failed] (the
    API call settled); once the phase is [complete] or [failed], no turn
    changes it until the modal is closed. *)
Theorem phase_moves_in_session :
  (forall m0 m1,
     fresh m0 -> step m0 EvOpen = Some m1 ->
     phase (state m1) = analyzing) /\
  (forall m m' e,
     session m -> e <> EvClose -> step m e = Some m' ->
     (phase (state m') = phase (state m) \/
      modal_transition (phase (state m)) (phase (state m')) = true) /\
     (terminal (phase (state m)) = true ->
      phase (state m') = phase (state m))).
Proof.
  split; [intros m0 m1 Hf Ho; exact (proj2 (open_fresh_state Hf Ho)) |].
  intros m m' e Hs Hne Hstep.
  destruct (session_move Hs Hne Hstep)
    as [Hsame | _ _ _ Ht _ Hnext | _ _ Ht Hend].
  - rewrite Hsame. split; [left; reflexivity | reflexivity].
  - split.
    + destruct Hnext as [Heq | Hnext]; [left; exact Heq |].
      right. unfold modal_transition. rewrite Hnext. reflexivity.
    + rewrite Ht. discriminate.
  - split.
    + right. unfold modal_transition. rewrite Ht.
      destruct Hend as [[-> _] | [-> _]]; apply orb_true_r.
    + rewrite Ht. discriminate.
Qed.

Lemma phase_moves_in_session_witness :
  (phase (state Samples.modal_settled) = phase (state Samples.modal_opened) \/
   modal_transition (phase (state Samples.modal_opened))
     (phase (state Samples.modal_settled)) = true) /\
  (terminal (phase (state Samples.modal_opened)) = true ->
   phase (state Samples.modal_settled) = phase (state Samples.modal_opened)).
Proof.
  assert (Hs : session Samples.modal_opened).
  { apply session_open with (m0 := Samples.modal0).
    - repeat split.
    - vm_compute. reflexivity. }
  apply (proj2 phase_moves_in_session Samples.modal_opened
           Samples.modal_settled
           (EvSettle 0 (Normal Samples.response_clean) Samples.now1) Hs).
  - discriminate.
  - vm_compute. reflexivity.
Defined.

(** C3 as stated fails: when the API call settles before the second timer,
    the phase moves from [analyzing] straight to [complete], which is none
    of the listed transitions. *)
Lemma phase_jumps_to_complete :
  session Samples.modal_opened /\
  step Samples.modal_opened
    (EvSettle 0 (Normal Samples.response_clean) Samples.now1)
  = Some Samples.modal_settled /\
  phase (state Samples.modal_opened) = analyzing /\
  phase (state Samples.modal_settled) = complete /\
  listed_transition (phase (state Samples.modal_opened))
    (phase (state Samples.modal_settled)) = false.
Proof.
  split.
  { apply session_open with (m0 := Samples.modal0).
    - repeat split.
    - vm_compute. reflexivity. }
  split; [vm_compute; reflexivity |].
  repeat split.
Qed.

(** A modal closed while its call was in flight is not fresh once that
    call has settled: the outcome sits in the state of the closed modal, so
    the next run starts from a terminal state, and its first timer moves
    the phase from [complete] to [analyzing]. *)
Example stale_state_at_reopening :
  exists m m',
    run_events Samples.modal0
      [EvOpen; EvClose;
       EvSettle 0 (Normal Samples.response_clean) Samples.now1; EvOpen]
    = Some m /\
    inFlight m = [1] /\
    phase (state m) = complete /\
    finalStatus (state m) = Some status_success /\
    step m (EvTimeout 1) = Some m' /\
    phase (state m') = analyzing.
Proof.
  eexists. eexists.
  split; [vm_compute; reflexivity |].
  repeat split.
Qed.

(** Outside a session the picture differs: closing the modal clears
    neither the timers nor the call of the run under way, so after a
    reopening a timer of the earlier run can still fire once the later run
    has completed. *)
Example stale_timer_after_completion :
  exists m,
    run_events Samples.modal0
      [EvOpen; EvClose; EvOpen;
       EvSettle 1 (Normal Samples.response_clean) Samples.now1;
       EvTimeout 0; EvTimeout 0]
    = Some m /\
    phase (state m) = generating /\
    finalStatus (state m) = Some status_success.
Proof.
  eexists. split; [vm_compute; reflexivity |].
  split; reflexivity.
Qed.

End LiveBuilderSpec.

(** ** More on [trim] and on the controls of [PipelineForm] *)

Module FormExtra.

Import Form FormUI JsFacts.

(** *** [trim] leaves a clean string *)

Lemma trimStart_starts_clean (s : JsString) : starts_clean (trimStart s).
Proof.
  induction s as [|c r IH]; simpl; [exact I |].
  destruct (isWhiteSpace c) eqn:Hc; [exact IH | exact Hc].
Qed.

Lemma trimStart_of_clean (s : JsString) : starts_clean s -> trimStart s = s.
Proof.
  destruct s as [|c r]; simpl; [reflexivity |].
  intro Hc. rewrite Hc. reflexivity.
Qed.

Lemma trimEnd_prefix (t : JsString) :
  exists q, t = trimEnd t ++ q /\ whitespace_only q.
Proof.
  destruct (trimStart_suffix (rev t)) as [p [Hp Hw]].
  exists (rev p). split.
  - unfold trimEnd. rewrite <- rev_app_distr, <- Hp.
    symmetry. apply rev_involutive.
  - apply whitespace_only_rev. exact Hw.
Qed.

Lemma trimEnd_ends_clean (t : JsString) : ends_clean (trimEnd t).
Proof.
  unfold ends_clean, trimEnd. rewrite rev_involutive.
  apply trimStart_starts_clean.
Qed.

Lemma trimEnd_keeps_start (t : JsString) :
  starts_clean t -> starts_clean (trimEnd t).
Proof.
  intro Ht. destruct (trimEnd_prefix t) as [q [Hq _]].
  destruct (trimEnd t) as [|c r]; [exact I |].
  rewrite Hq in Ht. exact Ht.
Qed.

Lemma trim_clean (s : JsString) :
  starts_clean (trim s) /\ ends_clean (trim s).
Proof.
  unfold trim. split.
  - apply trimEnd_keeps_start. apply trimStart_starts_clean.
  - apply trimEnd_ends_clean.
Qed.

Lemma trim_decompose (s : JsString) :
  exists p q,
    s = p ++ trim s ++ q /\ whitespace_only p /\ whitespace_only q.
Proof.
  destruct (trimStart_suffix s) as [p [Hp Hwp]].
  destruct (trimEnd_prefix (trimStart s)) as [q [Hq Hwq]].
  exists p, q. unfold trim. rewrite <- Hq. auto.
Qed.

Lemma trim_of_clean (s : JsString) :
  starts_clean s -> ends_clean s -> trim s = s.
Proof.
  intros Hs He. unfold trim, trimEnd.
  rewrite (trimStart_of_clean s Hs).
  rewrite (trimStart_of_clean (rev s) He).
  apply rev_involutive.
Qed.

Lemma trim_idempotent (s : JsString) : trim (trim s) = trim s.
Proof.
  destruct (trim_clean s) as [Hs He].
  apply trim_of_clean; assumption.
Qed.

(** X1. Whatever the form submits as the prompt is not empty, neither starts
    nor ends with whitespace, and is the typed prompt with nothing but
    whitespace taken off its two ends. *)
Theorem submitted_prompt_clean (st : FormState) (d : SubmitData) :
  In (OnSubmit d) (handleSubmit st) ->
  sd_prompt d <> [] /\
  starts_clean (sd_prompt d) /\ ends_clean (sd_prompt d) /\
  exists p q,
    prompt st = p ++ sd_prompt d ++ q /\
    whitespace_only p /\ whitespace_only q.
Proof.
  intro Hin.
  destruct (FormSpec.handleSubmit_cases st) as [Hnil | [pd [_ [Ht Hcall]]]].
  - rewrite Hnil in Hin. destruct Hin.
  - rewrite Hcall in Hin. destruct Hin as [Heq | []].
    injection Heq as <-. simpl.
    destruct (trim_clean (prompt st)) as [Hs He].
    repeat split; try assumption.
    + intro Hnone. rewrite Hnone in Ht. discriminate.
    + apply trim_decompose.
Qed.

Lemma submitted_prompt_clean_witness :
  exists d,
    In (OnSubmit d) (handleSubmit Samples.form_ready) /\
    sd_prompt d = lit "dedupe by email" /\
    starts_clean (sd_prompt d) /\ ends_clean (sd_prompt d).
Proof.
  eexists. split; [vm_compute; left; reflexivity |].
  split; [vm_compute; reflexivity |].
  assert (Hin : In (OnSubmit
                      {| sd_prompt := trim (prompt Samples.form_ready);
                         sd_csvContent := rawContent Samples.form_ready;
                         sd_parsedData := Samples.csv1 |})
                   (handleSubmit Samples.form_ready)).
  { vm_compute. left. reflexivity. }
  destruct (submitted_prompt_clean Samples.form_ready _ Hin)
    as [_ [Hs [He _]]].
  split; [exact Hs | exact He].
Defined.

(** *** The controls *)

Lemma ui_run_snoc (es : list UiEvent) (e : UiEvent) :
  ui_run (es ++ [e]) =
    match ui_run es with
    | Some (st, calls) =>
        match ui_step st e with
        | Some (st', new) => Some (st', calls ++ new)
        | None => None
        end
    | None => None
    end.
Proof. unfold ui_run, ui_run_from. rewrite fold_left_app. reflexivity. Qed.

Lemma last_upload_snoc (es : list UiEvent) (e : UiEvent) :
  last_upload (es ++ [e]) =
    match e with
    | UploadParsed data content => Some (data, content)
    | _ => last_upload es
    end.
Proof.
  induction es as [|x r IH]; simpl.
  - destruct e; reflexivity.
  - rewrite IH. destruct e; try reflexivity.
Qed.

Lemma ui_invariant (es : list UiEvent) :
  forall st calls,
    ui_run es = Some (st, calls) ->
    (step st = Step2 -> parsedData st <> None) /\ holds_latest es st.
Proof.
  induction es as [|e es IH] using rev_ind; intros st calls Hrun.
  - injection Hrun as <- <-. split; [discriminate | split; reflexivity].
  - rewrite ui_run_snoc in Hrun.
    destruct (ui_run es) as [[st0 calls0]|]; [| discriminate].
    destruct (IH st0 calls0 eq_refl) as [Hstep Hlatest].
    unfold holds_latest in *. rewrite last_upload_snoc.
    destruct e as [data content | | | i | text | b]; simpl in Hrun.
    + injection Hrun as <- <-. simpl.
      split; [discriminate | split; reflexivity].
    + destruct (step st0) eqn:Hs; [| discriminate].
      destruct (parsedData st0) eqn:Hpd; [| discriminate].
      injection Hrun as <- <-. simpl. rewrite Hpd.
      split; [discriminate | exact Hlatest].
    + destruct (step st0) eqn:Hs; [discriminate |].
      injection Hrun as <- <-. simpl.
      split; [discriminate | exact Hlatest].
    + destruct (step st0) eqn:Hs; [discriminate |].
      destruct (nth_error PROMPT_TEMPLATES i); [| discriminate].
      injection Hrun as <- <-. simpl. rewrite Hs.
      split; [intros _; apply Hstep; reflexivity | exact Hlatest].
    + destruct (step st0) eqn:Hs; [discriminate |].
      injection Hrun as <- <-. simpl. rewrite Hs.
      split; [intros _; apply Hstep; reflexivity | exact Hlatest].
    + destruct (step st0) eqn:Hs; [discriminate |].
      destruct (buildDisabled st0 b); [discriminate |].
      injection Hrun as <- <-.
      split; [intros _; apply Hstep; reflexivity | exact Hlatest].
Qed.

Lemma last_upload_in (es : list UiEvent) (data : ParsedCSV)
    (content : JsString) :
  last_upload es = Some (data, content) -> In (UploadParsed data content) es.
Proof.
  induction es as [|e r IH]; simpl; [discriminate |].
  destruct (last_upload r) as [u|].
  - intro H. right. apply IH. exact H.
  - destruct e; try discriminate.
    intro H. injection H as <- <-. left. reflexivity.
Qed.

Lemma holds_latest_some (es : list UiEvent) (st : FormState) (pd : ParsedCSV) :
  holds_latest es st -> parsedData st = Some pd ->
  last_upload es = Some (pd, rawContent st).
Proof.
  unfold holds_latest.
  destruct (last_upload es) as [[data content]|]; intros [H1 H2] Hpd.
  - congruence.
  - congruence.
Qed.

(** X2. However the form is operated, the second step is only reached with a
    parsed dataset, the dataset and the raw content the form holds are those
    of the latest upload, and every submission made so far carries a dataset
    together with the raw content it was uploaded with. *)
Theorem form_holds_latest_upload (es : list UiEvent) (st : FormState)
    (calls : list Call) :
  ui_run es = Some (st, calls) ->
  (step st = Step2 -> parsedData st <> None) /\
  holds_latest es st /\
  (forall d, In (OnSubmit d) calls ->
     In (UploadParsed (sd_parsedData d) (sd_csvContent d)) es).
Proof.
  intro Hrun.
  destruct (ui_invariant es Hrun) as [Hstep Hlatest].
  split; [exact Hstep |]. split; [exact Hlatest |].
  clear Hstep Hlatest. revert st calls Hrun.
  induction es as [|e es IH] using rev_ind; intros st calls Hrun d Hin.
  - injection Hrun as <- <-. destruct Hin.
  - rewrite ui_run_snoc in Hrun.
    destruct (ui_run es) as [[st0 calls0]|] eqn:Hrun0; [| discriminate].
    destruct (ui_step st0 e) as [[st1 new]|] eqn:Hstep; [| discriminate].
    injection Hrun as <- <-.
    apply in_app_or in Hin. destruct Hin as [Hold | Hnew].
    + apply in_or_app. left. exact (IH st0 calls0 eq_refl d Hold).
    + destruct e as [data content | | | i | text | b]; simpl in Hstep.
      * injection Hstep as <- <-. destruct Hnew.
      * destruct (step st0); [| discriminate].
        destruct (parsedData st0); [| discriminate].
        injection Hstep as <- <-. destruct Hnew.
      * destruct (step st0); [discriminate |].
        injection Hstep as <- <-. destruct Hnew.
      * destruct (step st0); [discriminate |].
        destruct (nth_error PROMPT_TEMPLATES i); [| discriminate].
        injection Hstep as <- <-. destruct Hnew.
      * destruct (step st0); [discriminate |].
        injection Hstep as <- <-. destruct Hnew.
      * destruct (step st0); [discriminate |].
        destruct (buildDisabled st0 b); [discriminate |].
        injection Hstep as <- <-.
        destruct (FormSpec.handleSubmit_cases st0)
          as [Hnil | [pd [Hpd [_ Hcall]]]].
        -- rewrite Hnil in Hnew. destruct Hnew.
        -- rewrite Hcall in Hnew. destruct Hnew as [Heq | []].
           injection Heq as <-. simpl.
           apply in_or_app. left. apply last_upload_in.
           apply holds_latest_some; [| exact Hpd].
           exact (proj2 (ui_invariant es Hrun0)).
Qed.

Lemma form_holds_latest_upload_witness :
  (step Samples.form_ready = Step2 ->
   parsedData Samples.form_ready <> None) /\
  holds_latest sample_events Samples.form_ready /\
  (forall d, In (OnSubmit d) [] ->
     In (UploadParsed (sd_parsedData d) (sd_csvContent d)) sample_events).
Proof.
  apply (@form_holds_latest_upload sample_events Samples.form_ready []).
  vm_compute. reflexivity.
Defined.

(** X3. Wherever the form has been brought, an enabled "Build Pipeline"
    button always submits: a click on it calls [onSubmit] exactly once, with
    the trimmed prompt and the dataset and raw content of the latest upload,
    and it is never enabled while a submission is under way. *)
Theorem enabled_build_submits (es : list UiEvent) (st st' : FormState)
    (calls new : list Call) (b : bool) :
  ui_run es = Some (st, calls) ->
  ui_step st (ClickBuild b) = Some (st', new) ->
  exists data content,
    last_upload es = Some (data, content) /\
    st' = st /\ b = false /\
    new = [OnSubmit {| sd_prompt := trim (prompt st);
                       sd_csvContent := content;
                       sd_parsedData := data |}].
Proof.
  intros Hrun Hclick.
  destruct (ui_invariant es Hrun) as [Hstep Hlatest].
  simpl in Hclick.
  destruct (step st) eqn:Hs; [discriminate |].
  unfold buildDisabled in Hclick.
  destruct (truthy (trim (prompt st))) eqn:Ht; [| discriminate].
  destruct b; [discriminate |]. simpl in Hclick.
  injection Hclick as <- <-.
  destruct (parsedData st) as [pd|] eqn:Hpd;
    [| contradiction (Hstep eq_refl); reflexivity].
  exists pd, (rawContent st).
  split; [apply holds_latest_some; assumption |].
  repeat split.
  unfold handleSubmit. rewrite Hpd, Ht. reflexivity.
Qed.

Lemma enabled_build_submits_witness :
  exists data content,
    last_upload sample_events = Some (data, content) /\
    Samples.form_ready = Samples.form_ready /\ false = false /\
    handleSubmit Samples.form_ready =
      [OnSubmit {| sd_prompt := trim (prompt Samples.form_ready);
                   sd_csvContent := content;
                   sd_parsedData := data |}].
Proof.
  apply (@enabled_build_submits sample_events Samples.form_ready
           Samples.form_ready [] (handleSubmit Samples.form_ready) false).
  - vm_compute. reflexivity.
  - vm_compute. reflexivity.
Defined.

(** *** The templates *)

Lemma str_eqb_eq (a b : JsString) : str_eqb a b = true <-> a = b.
Proof.
  revert b. induction a as [|x a IH]; intros [|y b]; simpl;
    try (split; [discriminate | discriminate]).
  - split; reflexivity.
  - rewrite andb_true_iff, N.eqb_eq, IH.
    split; [intros [-> ->]; reflexivity | intro H; injection H; auto].
Qed.

Lemma distinct_NoDup (l : list JsString) : distinct l = true -> NoDup l.
Proof.
  induction l as [|x r IH]; simpl; intro H; [constructor |].
  apply andb_true_iff in H. destruct H as [Hx Hr].
  constructor; [| apply IH; exact Hr].
  intro Hin. apply negb_true_iff in Hx.
  assert (Hex : existsb (str_eqb x) r = true).
  { apply existsb_exists. exists x. split; [exact Hin |].
    apply str_eqb_eq. reflexivity. }
  congruence.
Qed.

Lemma templates_clean :
  Forall (fun t => trim (tpl_prompt t) = tpl_prompt t /\
                   truthy (tpl_prompt t) = true) PROMPT_TEMPLATES.
Proof. repeat constructor; vm_compute; reflexivity. Qed.

(** X4. The prompt templates can be told apart and used as they are: no two
    share an id or a prompt (so at most one is highlighted), and once a
    dataset is there, choosing a template and clicking "Build Pipeline"
    submits that template's prompt unchanged. *)
Theorem templates_usable :
  NoDup (map tpl_id PROMPT_TEMPLATES) /\
  NoDup (map tpl_prompt PROMPT_TEMPLATES) /\
  forall st pd i st1 new,
    parsedData st = Some pd ->
    ui_step st (ClickTemplate i) = Some (st1, new) ->
    exists t,
      nth_error PROMPT_TEMPLATES i = Some t /\
      prompt st1 = tpl_prompt t /\
      ui_step st1 (ClickBuild false) =
        Some (st1, [OnSubmit {| sd_prompt := tpl_prompt t;
                                sd_csvContent := rawContent st;
                                sd_parsedData := pd |}]).
Proof.
  split; [apply distinct_NoDup; vm_compute; reflexivity |].
  split; [apply distinct_NoDup; vm_compute; reflexivity |].
  intros st pd i st1 new Hpd Hclick.
  cbn [ui_step] in Hclick.
  destruct (step st) eqn:Hs; [discriminate |].
  destruct (nth_error PROMPT_TEMPLATES i) as [t|] eqn:Hi; [| discriminate].
  injection Hclick as <- <-.
  exists t. split; [reflexivity |]. split; [reflexivity |].
  pose proof templates_clean as Hclean.
  rewrite Forall_forall in Hclean.
  destruct (Hclean t (nth_error_In _ _ Hi)) as [Htrim Htruthy].
  unfold ui_step, buildDisabled, handleSubmit, setPrompt.
  cbn [step prompt parsedData rawContent].
  rewrite Hs, Htrim, Htruthy, Hpd. reflexivity.
Qed.

Lemma templates_usable_witness :
  exists t,
    nth_error PROMPT_TEMPLATES 1 = Some t /\
    tpl_id t = lit "lead-scoring" /\
    ui_step (setPrompt Samples.form_ready (tpl_prompt t)) (ClickBuild false) =
      Some (setPrompt Samples.form_ready (tpl_prompt t),
            [OnSubmit {| sd_prompt := tpl_prompt t;
                         sd_csvContent := rawContent Samples.form_ready;
                         sd_parsedData := Samples.csv1 |}]).
Proof.
  destruct templates_usable as [_ [_ H]].
  destruct (H Samples.form_ready Samples.csv1 1
              (setPrompt Samples.form_ready
                 (tpl_prompt (nth 1 PROMPT_TEMPLATES
                                {| tpl_id := []; tpl_title := [];
                                   tpl_description := []; tpl_prompt := [] |})))
              [] eq_refl eq_refl) as [t [Ht [_ Hbuild]]].
  exists t. split; [exact Ht |].
  injection Ht as <-.
  split; [vm_compute; reflexivity | exact Hbuild].
Defined.

(** *** The data summary *)

(** X5. The data summary names at most five columns, and it shows the
    ellipsis exactly when it leaves a column out. *)
Theorem summary_ellipsis (pd : ParsedCSV) :
  List.length (summaryColumns pd) <= 5 /\
  (summaryEllipsis pd = [] <-> summaryColumns pd = headers pd) /\
  (summaryEllipsis pd <> [] ->
   List.length (summaryColumns pd) = 5 /\
   summaryColumns pd ++ skipn 5 (headers pd) = headers pd /\
   skipn 5 (headers pd) <> []).
Proof.
  unfold summaryColumns, summaryEllipsis.
  split; [apply firstn_le_length |].
  destruct (Nat.ltb_spec 5 (List.length (headers pd))) as [Hlt | Hle].
  - split.
    + split; [discriminate |].
      intro Heq. apply (f_equal (@List.length JsString)) in Heq.
      rewrite firstn_length_le in Heq by lia. lia.
    + intros _. split; [apply firstn_length_le; lia |].
      split; [apply firstn_skipn |].
      intro Hnil. apply (f_equal (@List.length JsString)) in Hnil.
      rewrite length_skipn in Hnil. simpl in Hnil. lia.
  - split.
    + split; [intros _; apply firstn_all2; exact Hle | reflexivity].
    + intro H. contradiction H. reflexivity.
Qed.

End FormExtra.

(** ** More on the live builder *)

Module LiveBuilderExtra.

Import LiveBuilder LiveBuilderView.

(** A property kept by every turn of the event loop holds after any
    sequence of events. *)
Lemma run_events_preserves (P : Modal -> Prop) :
  (forall m m' e, P m -> step m e = Some m' -> P m') ->
  forall es m m', P m -> run_events m es = Some m' -> P m'.
Proof.
  intros Hstep es. induction es as [|e r IH]; intros m m' HP Hrun;
    simpl in Hrun.
  - injection Hrun as <-. exact HP.
  - destruct (step m e) as [m1|] eqn:He; [| discriminate].
    apply (IH m1 m'); [| exact Hrun].
    exact (Hstep m m1 e HP He).
Qed.

(** *** The response behind the result *)

Lemma result_consistent_step (m m' : Modal) (e : Event) :
  result_consistent m -> step m e = Some m' -> result_consistent m'.
Proof.
  unfold result_consistent. intros Hm Hstep.
  destruct e as [ | | run | run settled now | | ]; simpl in Hstep.
  - destruct (isOpen m); [discriminate |].
    injection Hstep as <-.
    unfold runEffect. simpl. destruct (hasStartedRef m); exact Hm.
  - destruct (isOpen m); [| discriminate].
    injection Hstep as <-.
    unfold abort. destruct (abortControllerRef m); simpl; discriminate.
  - destruct (take_timer run (timeouts m)) as [[t rest]|]; [| discriminate].
    injection Hstep as <-. exact Hm.
  - destruct (mem_run run (inFlight m)); [| discriminate].
    injection Hstep as <-.
    destruct settled as [r | err].
    + rewrite LiveBuilderSpec.resume_returned. simpl.
      intros _. exists r. repeat split.
    + rewrite LiveBuilderSpec.resume_thrown. simpl. discriminate.
  - injection Hstep as <-.
    unfold handleCancel, abort. destruct (abortControllerRef m); exact Hm.
  - injection Hstep as <-.
    unfold handleViewResults.
    destruct (apiResponse m) eqn:Hr; simpl; rewrite ?Hr; exact Hm.
Qed.

Lemma result_consistent_reachable (p c : JsString) (es : list Event)
    (m : Modal) :
  run_events (mount p c) es = Some m -> result_consistent m.
Proof.
  apply (@run_events_preserves result_consistent result_consistent_step).
  unfold result_consistent. simpl. discriminate.
Qed.

(** X6. Whenever the "View Results" button is on offer, the component holds
    the response the state was filled from, and a click hands exactly that
    response to [onComplete]: its run id, specification and iteration count
    are the ones on display. *)
Theorem view_results_hands_shown_run (p c : JsString) (es : list Event)
    (m : Modal) :
  run_events (mount p c) es = Some m ->
  showViewResults m = true ->
  exists r,
    apiResponse m = Some r /\
    step m EvViewResults =
      Some (emit m (OnComplete {| cd_runId := runId (state m);
                                  cd_pipelineId := pipeline_id r;
                                  cd_response := r |})) /\
    currentSpec (state m) = pipeline_spec (report r) /\
    currentIteration (state m) = fix_iterations (report r).
Proof.
  intros Hrun Hshow.
  pose proof (result_consistent_reachable p c es Hrun) as Hcons.
  unfold showViewResults in Hshow.
  apply andb_true_iff in Hshow. destruct Hshow as [Hshow _].
  apply andb_true_iff in Hshow. destruct Hshow as [_ Hstatus].
  assert (Hfs : finalStatus (state m) = Some status_success).
  { destruct (finalStatus (state m)) as [[|]|]; simpl in Hstatus;
      [reflexivity | discriminate | discriminate]. }
  destruct (Hcons Hfs) as [r [Hr [Hid [Hspec Hiter]]]].
  exists r. split; [exact Hr |].
  split; [| split; assumption].
  simpl. unfold handleViewResults. rewrite Hr, Hid. reflexivity.
Qed.

Lemma view_results_hands_shown_run_witness :
  exists r,
    apiResponse Samples.modal_settled = Some r /\
    step Samples.modal_settled EvViewResults =
      Some (emit Samples.modal_settled
              (OnComplete {| cd_runId := runId (state Samples.modal_settled);
                             cd_pipelineId := pipeline_id r;
                             cd_response := r |})) /\
    currentSpec (state Samples.modal_settled) = pipeline_spec (report r) /\
    currentIteration (state Samples.modal_settled)
    = fix_iterations (report r).
Proof.
  apply (@view_results_hands_shown_run (lit "dedupe by email")
           (lit "ZW1haWwK")
           [EvOpen; EvSettle 0 (Normal Samples.response_clean) Samples.now1]
           Samples.modal_settled).
  - vm_compute. reflexivity.
  - vm_compute. reflexivity.
Defined.

(** *** What the dialog offers *)

Lemma session_result_consistent (m : Modal) :
  session m -> result_consistent m.
Proof.
  induction 1 as [m0 m1 Hfresh Hopen | m e m' _ IH _ Hstep].
  - apply (@result_consistent_step m0 m1 EvOpen); [| exact Hopen].
    destruct Hfresh as [_ [_ [_ [_ [_ Hfs]]]]].
    unfold result_consistent. rewrite Hfs. discriminate.
  - exact (@result_consistent_step m m' e IH Hstep).
Qed.

(** X7. While the modal stays open after the opening of a fresh modal
    (closed, no timer and no call of an earlier run pending, phase
    [analyzing] and final status null), exactly one of the three buttons is
    rendered and the title matches: the cancel icon under "Building
    Pipeline..." while the call is in flight, "View Results" under
    "Pipeline Built Successfully" after a response, "Close" under "Pipeline
    Build Failed" after a failure.  (The dialog's own dismissal, which
    calls [handleCancel], is there in every state and is not one of the
    three.) *)
Theorem one_action_in_session (m : Modal) :
  session m ->
  (finalStatus (state m) = None /\ dialogTitle m = Building /\
   showCancelIcon m = true /\ showCloseButton m = false /\
   showViewResults m = false) \/
  (finalStatus (state m) = Some status_success /\
   dialogTitle m = BuiltSuccessfully /\
   showCancelIcon m = false /\ showCloseButton m = false /\
   showViewResults m = true) \/
  (finalStatus (state m) = Some status_failed /\
   dialogTitle m = BuildFailed /\
   showCancelIcon m = false /\ showCloseButton m = true /\
   showViewResults m = false).
Proof.
  intro Hs.
  pose proof (session_result_consistent Hs) as Hcons.
  unfold dialogTitle, showCancelIcon, showCloseButton, showViewResults.
  rewrite LiveBuilderSpec.phaseIsComplete_terminal.
  destruct (LiveBuilderSpec.session_invariant Hs)
    as [run k _ _ _ _ Hp Hfs | _ _ _ [[Hp Hfs] | [Hp Hfs]]].
  - left. rewrite Hp, LiveBuilderSpec.simulated_not_terminal, Hfs.
    repeat split.
  - right. left.
    destruct (Hcons Hfs) as [r [Hr _]].
    rewrite Hp, Hfs, Hr. repeat split.
  - right. right. rewrite Hp, Hfs. repeat split.
Qed.

Lemma one_action_in_session_witness :
  (finalStatus (state Samples.modal_opened) = None /\
   dialogTitle Samples.modal_opened = Building /\
   showCancelIcon Samples.modal_opened = true /\
   showCloseButton Samples.modal_opened = false /\
   showViewResults Samples.modal_opened = false) \/
  (finalStatus (state Samples.modal_opened) = Some status_success /\
   dialogTitle Samples.modal_opened = BuiltSuccessfully /\
   showCancelIcon Samples.modal_opened = false /\
   showCloseButton Samples.modal_opened = false /\
   showViewResults Samples.modal_opened = true) \/
  (finalStatus (state Samples.modal_opened) = Some status_failed /\
   dialogTitle Samples.modal_opened = BuildFailed /\
   showCancelIcon Samples.modal_opened = false /\
   showCloseButton Samples.modal_opened = true /\
   showViewResults Samples.modal_opened = false).
Proof.
  apply one_action_in_session.
  apply session_open with (m0 := Samples.modal0).
  - repeat split.
  - vm_compute. reflexivity.
Defined.

(** *** Calls of the API *)

Lemma api_calls_app (a b : list Call) :
  api_calls (a ++ b) = api_calls a ++ api_calls b.
Proof. unfold api_calls. apply flat_map_app. Qed.

(** What one turn of the event loop does to the calls of the API. *)
Lemma step_api_calls (m m' : Modal) (e : Event) :
  closed_unstarted m -> step m e = Some m' ->
  closed_unstarted m' /\
  prompt m' = prompt m /\ csvBase64 m' = csvBase64 m /\
  match e with
  | EvOpen =>
      api_calls (calls m') = api_calls (calls m) ++ [(nextRun m, request m)] /\
      nextRun m' = S (nextRun m)
  | _ =>
      api_calls (calls m') = api_calls (calls m) /\ nextRun m' = nextRun m
  end.
Proof.
  unfold closed_unstarted. intros Hm Hstep.
  destruct e as [ | | run | run settled now | | ]; simpl in Hstep.
  - destruct (isOpen m) eqn:Ho; [discriminate |].
    injection Hstep as <-.
    unfold runEffect. simpl. rewrite (Hm eq_refl). simpl.
    split; [discriminate |]. repeat split.
    rewrite api_calls_app. reflexivity.
  - destruct (isOpen m) eqn:Ho; [| discriminate].
    injection Hstep as <-.
    unfold abort. destruct (abortControllerRef m); simpl; repeat split.
  - destruct (take_timer run (timeouts m)) as [[t rest]|]; [| discriminate].
    injection Hstep as <-. simpl. repeat split. exact Hm.
  - destruct (mem_run run (inFlight m)); [| discriminate].
    injection Hstep as <-.
    destruct settled as [r | err].
    + rewrite LiveBuilderSpec.resume_returned. simpl.
      repeat split. exact Hm.
    + rewrite LiveBuilderSpec.resume_thrown. simpl.
      repeat split; [exact Hm |].
      rewrite api_calls_app. simpl. apply app_nil_r.
  - injection Hstep as <-.
    unfold handleCancel, abort.
    destruct (abortControllerRef m); simpl;
      (repeat split; [exact Hm |]);
      rewrite api_calls_app; simpl; apply app_nil_r.
  - injection Hstep as <-.
    unfold handleViewResults.
    destruct (apiResponse m); simpl; repeat split; try exact Hm.
    rewrite api_calls_app. simpl. apply app_nil_r.
Qed.


(** *** Timers and the calls they belong to *)

Lemma take_timer_some (run : nat) (ts : list Timer) (t : Timer)
    (rest : list Timer) :
  take_timer run ts = Some (t, rest) ->
  t_run t = run /\ In t ts /\ (forall x, In x rest -> In x ts).
Proof.
  revert t rest. induction ts as [|a ts IH]; intros t rest H; simpl in H;
    [discriminate |].
  destruct (Nat.eqb_spec (t_run a) run) as [Heq | Hne].
  - injection H as <- <-. repeat split; auto with datatypes.
  - destruct (take_timer run ts) as [[t' r']|]; [| discriminate].
    injection H as <- <-.
    destruct (IH t' r' eq_refl) as [Ht [Hin Hrest]].
    repeat split; auto with datatypes.
    intros x [<- | Hx]; auto with datatypes.
Qed.

Lemma take_timer_absent (run : nat) (ts : list Timer) :
  (forall t, In t ts -> t_run t <> run) -> take_timer run ts = None.
Proof.
  intro H. destruct (take_timer run ts) as [[t rest]|] eqn:Ht;
    [| reflexivity].
  destruct (take_timer_some _ _ Ht) as [Hrun [Hin _]].
  contradiction (H t Hin).
Qed.

Lemma remove_run_in (run x : nat) (l : list nat) :
  In x (remove_run run l) -> In x l.
Proof.
  induction l as [|a l IH]; simpl; [auto |].
  destruct (Nat.eqb a run); simpl; intuition.
Qed.

Lemma remove_run_keeps (run x : nat) (l : list nat) :
  x <> run -> In x l -> In x (remove_run run l).
Proof.
  intros Hne. induction l as [|a l IH]; simpl; [auto |].
  destruct (Nat.eqb_spec a run) as [-> | Ha]; simpl.
  - intros [Heq | Hin]; [congruence | exact Hin].
  - intros [Heq | Hin]; [left; exact Heq | right; apply IH; exact Hin].
Qed.

Lemma remove_run_NoDup (run : nat) (l : list nat) :
  NoDup l -> NoDup (remove_run run l) /\ ~ In run (remove_run run l).
Proof.
  induction 1 as [|a l Ha Hl IH]; simpl.
  - split; [constructor | auto].
  - destruct (Nat.eqb_spec a run) as [-> | Hne].
    + split; assumption.
    + destruct IH as [IH1 IH2]. split.
      * constructor; [| exact IH1].
        intro Hin. apply Ha. apply (remove_run_in _ _ _ Hin).
      * intros [Heq | Hin]; [congruence | contradiction].
Qed.

Lemma mem_run_in (run : nat) (l : list nat) :
  mem_run run l = true -> In run l.
Proof.
  unfold mem_run. intro H. apply existsb_exists in H.
  destruct H as [x [Hin Heq]]. apply Nat.eqb_eq in Heq. subst x. exact Hin.
Qed.

Lemma timers_in_flight_step (m m' : Modal) (e : Event) :
  timers_in_flight m -> step m e = Some m' -> timers_in_flight m'.
Proof.
  unfold timers_in_flight. intros [Ht [Hnd Hlt]] Hstep.
  rewrite Forall_forall in Ht, Hlt.
  destruct e as [ | | run | run settled now | | ]; simpl in Hstep.
  - destruct (isOpen m); [discriminate |].
    injection Hstep as <-.
    unfold runEffect. simpl.
    destruct (hasStartedRef m); simpl.
    + rewrite !Forall_forall. auto.
    + split; [| split].
      * apply Forall_app. split; rewrite Forall_forall.
        -- intros t Hin. apply in_or_app. left. apply Ht. exact Hin.
        -- intros t Hin. apply in_or_app. right.
           simpl in Hin.
           repeat (destruct Hin as [<- | Hin]; [left; reflexivity |]).
           destruct Hin.
      * apply NoDup_app; [exact Hnd | repeat constructor; auto |].
        intros x Hx [<- | []]. specialize (Hlt _ Hx). lia.
      * apply Forall_app. split; rewrite Forall_forall.
        -- intros x Hx. specialize (Hlt _ Hx). lia.
        -- intros x [<- | []]. lia.
  - destruct (isOpen m); [| discriminate].
    injection Hstep as <-.
    unfold abort. destruct (abortControllerRef m); simpl;
      rewrite !Forall_forall; auto.
  - destruct (take_timer run (timeouts m)) as [[t rest]|] eqn:Htake;
      [| discriminate].
    injection Hstep as <-. simpl.
    destruct (take_timer_some _ _ Htake) as [_ [_ Hrest]].
    rewrite !Forall_forall. auto.
  - destruct (mem_run run (inFlight m)); [| discriminate].
    injection Hstep as <-.
    destruct (remove_run_NoDup run Hnd) as [Hnd' _].
    assert (Hgoal :
      Forall (fun t => In (t_run t) (remove_run run (inFlight m)))
        (filter (fun t => negb (Nat.eqb (t_run t) run)) (timeouts m)) /\
      NoDup (remove_run run (inFlight m)) /\
      Forall (fun r => r < nextRun m) (remove_run run (inFlight m))).
    { split; [| split; [exact Hnd' |]]; rewrite Forall_forall.
      - intros t Hin. apply filter_In in Hin. destruct Hin as [Hin Hne].
        apply negb_true_iff, Nat.eqb_neq in Hne.
        apply remove_run_keeps; [exact Hne | apply Ht; exact Hin].
      - intros x Hx. apply Hlt. apply (remove_run_in _ _ _ Hx). }
    destruct settled as [r | err].
    + rewrite LiveBuilderSpec.resume_returned. exact Hgoal.
    + rewrite LiveBuilderSpec.resume_thrown. exact Hgoal.
  - injection Hstep as <-.
    unfold handleCancel, abort. destruct (abortControllerRef m); simpl;
      rewrite !Forall_forall; auto.
  - injection Hstep as <-.
    unfold handleViewResults. destruct (apiResponse m); simpl;
      rewrite !Forall_forall; auto.
Qed.

Lemma run_over_step (run : nat) (m m' : Modal) (e : Event) :
  run_over run m -> step m e = Some m' -> run_over run m'.
Proof.
  unfold run_over. intros [Hlt Hout] Hstep.
  destruct e as [ | | run' | run' settled now | | ]; simpl in Hstep.
  - destruct (isOpen m); [discriminate |].
    injection Hstep as <-.
    unfold runEffect. simpl.
    destruct (hasStartedRef m); simpl; [auto |].
    split; [lia |].
    intro Hin. apply in_app_or in Hin.
    destruct Hin as [Hin | [Heq | []]]; [contradiction | lia].
  - destruct (isOpen m); [| discriminate].
    injection Hstep as <-.
    unfold abort. destruct (abortControllerRef m); simpl; auto.
  - destruct (take_timer run' (timeouts m)) as [[t rest]|]; [| discriminate].
    injection Hstep as <-. simpl. auto.
  - destruct (mem_run run' (inFlight m)); [| discriminate].
    injection Hstep as <-.
    assert (Hgoal : run < nextRun m /\
                    ~ In run (remove_run run' (inFlight m))).
    { split; [exact Hlt |].
      intro Hin. apply Hout. apply (remove_run_in _ _ _ Hin). }
    destruct settled as [r | err].
    + rewrite LiveBuilderSpec.resume_returned. exact Hgoal.
    + rewrite LiveBuilderSpec.resume_thrown. exact Hgoal.
  - injection Hstep as <-.
    unfold handleCancel, abort. destruct (abortControllerRef m); simpl; auto.
  - injection Hstep as <-.
    unfold handleViewResults. destruct (apiResponse m); simpl; auto.
Qed.

Lemma timers_in_flight_mount (p c : JsString) : timers_in_flight (mount p c).
Proof. repeat split; constructor. Qed.

(** X9. The simulated phases of a run die with its call: once the API call
    of a run has settled, no timer of that run fires any more, whatever
    happens afterwards (closing, reopening, other runs). *)
Theorem no_timer_after_settle (p c : JsString) (es es' : list Event)
    (m m1 m2 : Modal) (run : nat) (settled : Completion Response)
    (now : JsString) :
  run_events (mount p c) es = Some m ->
  step m (EvSettle run settled now) = Some m1 ->
  run_events m1 es' = Some m2 ->
  step m2 (EvTimeout run) = None.
Proof.
  intros Hrun Hsettle Hrun'.
  pose proof (@run_events_preserves timers_in_flight timers_in_flight_step
                es _ _ (timers_in_flight_mount p c) Hrun) as Hinv.
  pose proof (@timers_in_flight_step _ _ _ Hinv Hsettle) as Hinv1.
  assert (Hover : run_over run m1).
  { destruct Hinv as [_ [Hnd Hlt]].
    simpl in Hsettle.
    destruct (mem_run run (inFlight m)) eqn:Hmem; [| discriminate].
    injection Hsettle as <-.
    rewrite Forall_forall in Hlt.
    pose proof (Hlt _ (mem_run_in _ _ Hmem)) as Hin.
    destruct (remove_run_NoDup run Hnd) as [_ Hout].
    unfold run_over.
    destruct settled as [r | err];
      [rewrite LiveBuilderSpec.resume_returned
      | rewrite LiveBuilderSpec.resume_thrown];
      split; assumption. }
  pose proof (@run_events_preserves timers_in_flight timers_in_flight_step
                es' _ _ Hinv1 Hrun') as Hinv2.
  pose proof (@run_events_preserves (run_over run) (@run_over_step run)
                es' _ _ Hover Hrun') as [_ Hout2].
  simpl. rewrite take_timer_absent; [reflexivity |].
  intros t Hin Heq. apply Hout2.
  destruct Hinv2 as [Ht _]. rewrite Forall_forall in Ht.
  rewrite <- Heq. apply Ht. exact Hin.
Qed.

Lemma no_timer_after_settle_witness :
  step Samples.modal_settled (EvTimeout 0) = None.
Proof.
  apply (@no_timer_after_settle (lit "dedupe by email") (lit "ZW1haWwK")
           [EvOpen] [] Samples.modal_opened Samples.modal_settled
           Samples.modal_settled 0 (Normal Samples.response_clean)
           Samples.now1).
  - vm_compute. reflexivity.
  - vm_compute. reflexivity.
  - reflexivity.
Defined.

(** *** Sequences of updates *)

Lemma updates_app (s : State) (ps qs : list Payload) :
  updates s (ps ++ qs) = updates (updates s ps) qs.
Proof. unfold updates. apply fold_left_app. Qed.

Lemma updates_without_spec (qs : list Payload) :
  Forall (fun q => carries_spec q = false) qs ->
  forall s,
    previousSpec (updates s qs) = previousSpec s /\
    currentSpec (updates s qs) = currentSpec s.
Proof.
  induction 1 as [|q qs Hq _ IH]; intro s; [split; reflexivity |].
  change (updates s (q :: qs)) with (updates (reducer s (UPDATE q)) qs).
  unfold carries_spec in Hq.
  destruct (IH (reducer s (UPDATE q))) as [-> ->].
  simpl. destruct (p_currentSpec q); [discriminate |]. auto.
Qed.

(** X10. After any sequence of updates whose payloads either leave
    [currentSpec] out or give it a value, a specification or null, the
    current specification is the one given by the latest update that gave
    one, and [previousSpec] is the specification that was current just
    before that update: the two are always one such update apart. *)
Theorem previousSpec_trails (s : State) (ps qs : list Payload) (p : Payload)
    (c : option Types.PipelineSpec) :
  p_currentSpec p = Some c ->
  Forall (fun q => carries_spec q = false) qs ->
  currentSpec (updates s (ps ++ p :: qs)) = c /\
  previousSpec (updates s (ps ++ p :: qs)) = currentSpec (updates s ps).
Proof.
  intros Hp Hqs.
  rewrite updates_app.
  change (updates (updates s ps) (p :: qs))
    with (updates (reducer (updates s ps) (UPDATE p)) qs).
  destruct (updates_without_spec Hqs (reducer (updates s ps) (UPDATE p)))
    as [-> ->].
  simpl. rewrite Hp. auto.
Qed.

Lemma previousSpec_trails_witness :
  currentSpec
    (updates (getInitialState (lit "pending"))
       ([successPayload Samples.response_errors Samples.now1;
         phasePayload generating] ++
        successPayload Samples.response_clean Samples.now1 ::
        [phasePayload evaluating]))
  = Some Samples.spec1 /\
  previousSpec
    (updates (getInitialState (lit "pending"))
       ([successPayload Samples.response_errors Samples.now1;
         phasePayload generating] ++
        successPayload Samples.response_clean Samples.now1 ::
        [phasePayload evaluating]))
  = currentSpec
      (updates (getInitialState (lit "pending"))
         [successPayload Samples.response_errors Samples.now1;
          phasePayload generating]).
Proof.
  apply previousSpec_trails.
  - reflexivity.
  - repeat constructor.
Defined.

(** *** Closing during a run *)

(** X14. Closing the modal stops neither the call nor the timers of the run
    under way: both are as they were, and when the call settles afterwards
    its outcome is still written into the state of the closed modal. *)
Theorem close_keeps_run_going (m m' : Modal) :
  step m EvClose = Some m' ->
  inFlight m' = inFlight m /\ timeouts m' = timeouts m /\
  forall run settled now,
    In run (inFlight m) ->
    exists m'',
      step m' (EvSettle run settled now) = Some m'' /\
      isOpen m'' = false /\
      phaseIsComplete (state m'') = true /\
      finalStatus (state m'') <> None.
Proof.
  intro Hclose.
  assert (Hkeep : inFlight m' = inFlight m /\ timeouts m' = timeouts m /\
                  isOpen m' = false).
  { simpl in Hclose. destruct (isOpen m); [| discriminate].
    injection Hclose as <-.
    unfold abort. destruct (abortControllerRef m); repeat split. }
  destruct Hkeep as [Hf [Ht Ho]].
  split; [exact Hf |]. split; [exact Ht |].
  intros run settled now Hin.
  assert (Hmem : mem_run run (inFlight m') = true).
  { rewrite Hf. unfold mem_run. apply existsb_exists.
    exists run. split; [exact Hin | apply Nat.eqb_refl]. }
  simpl. rewrite Hmem. eexists. split; [reflexivity |].
  destruct settled as [r | err].
  - rewrite LiveBuilderSpec.resume_returned. simpl.
    split; [exact Ho |]. split; [reflexivity | discriminate].
  - rewrite LiveBuilderSpec.resume_thrown. simpl.
    split; [exact Ho |]. split; [reflexivity | discriminate].
Qed.

Lemma close_keeps_run_going_witness :
  inFlight
    (resetEffect (runEffect (set_isOpen (abort Samples.modal_opened) false)))
  = inFlight Samples.modal_opened /\
  timeouts
    (resetEffect (runEffect (set_isOpen (abort Samples.modal_opened) false)))
  = timeouts Samples.modal_opened.
Proof.
  destruct (@close_keeps_run_going Samples.modal_opened
              (resetEffect (runEffect
                 (set_isOpen (abort Samples.modal_opened) false))))
    as [Hf [Ht _]].
  - vm_compute. reflexivity.
  - split; assumption.
Defined.

(** *** The synthesis request as a whole *)





End LiveBuilderExtra.

(** ** [PipelineCard] *)

Module CardSpec.

Import Card.

Lemma sent_app (a b : list Call) : sent (a ++ b) = sent a ++ sent b.
Proof. unfold sent. apply flat_map_app. Qed.

Lemma take_save_some (save : nat) (l : list (nat * Closure)) (cl : Closure)
    (rest : list (nat * Closure)) :
  take_save save l = Some (cl, rest) ->
  In (save, cl) l /\ (forall w, In w rest -> In w l).
Proof.
  revert cl rest. induction l as [|[n a] l IH]; intros cl rest H;
    simpl in H; [discriminate |].
  destruct (Nat.eqb_spec n save) as [-> | Hne].
  - injection H as <- <-. split; auto with datatypes.
  - destruct (take_save save l) as [[cl' r']|]; [| discriminate].
    injection H as <- <-.
    destruct (IH cl' r' eq_refl) as [Hin Hrest].
    split; [right; exact Hin |].
    intros w [<- | Hw]; auto with datatypes.
Qed.

(** What [saveChanges] does before it waits. *)
Lemma saveChanges_start_cases (c : CardState) :
  (truthy (trim (editName c)) = false /\ saveChanges_start c = c) \/
  (truthy (trim (editName c)) = true /\
   calls (saveChanges_start c) =
     calls c ++ [UpdatePipeline (nextSave c) (id (pipeline c))
                   (trim (editName c))] /\
   saving (saveChanges_start c) =
     saving c ++ [(nextSave c,
                   {| cl_pipeline := pipeline c;
                      cl_editName := editName c;
                      cl_hasOnUpdate := hasOnUpdate c |})] /\
   isSaving (saveChanges_start c) = true /\
   isEditing (saveChanges_start c) = isEditing c /\
   editName (saveChanges_start c) = editName c).
Proof.
  unfold saveChanges_start.
  destruct (truthy (trim (editName c))); simpl.
  - right. repeat split.
  - left. split; reflexivity.
Qed.

Lemma card_inv_grow (c c' : CardState) (extra : list Call)
    (more : list (nat * Closure)) :
  card_inv c ->
  calls c' = calls c ++ extra ->
  Forall (fun s => snd s <> [] /\ trim (snd s) = snd s) (sent extra) ->
  (forall w, In w (saving c') -> In w (saving c) \/ In w more) ->
  Forall (fun w => In (id (cl_pipeline (snd w)), trim (cl_editName (snd w)))
                     (sent (calls c ++ extra))) more ->
  (forall p, In (OnUpdate p) extra ->
     In (id p, name p) (sent (calls c ++ extra))) ->
  card_inv c'.
Proof.
  unfold card_inv. intros [Hsent [Hsaving Hon]] Hcalls Hextra Hsub Hmore Hnew.
  rewrite Hcalls.
  rewrite Forall_forall in Hsaving, Hmore.
  split; [| split].
  - rewrite sent_app. apply Forall_app. split; assumption.
  - rewrite Forall_forall. intros w Hw.
    destruct (Hsub w Hw) as [Hold | Hnewer].
    + rewrite sent_app. apply in_or_app. left. apply Hsaving. exact Hold.
    + apply Hmore. exact Hnewer.
  - intros p Hin. apply in_app_or in Hin. destruct Hin as [Hold | Hin].
    + rewrite sent_app. apply in_or_app. left. apply Hon. exact Hold.
    + apply Hnew. exact Hin.
Qed.

Lemma card_inv_same_calls (c c' : CardState) :
  card_inv c -> calls c' = calls c ->
  (forall w, In w (saving c') -> In w (saving c)) ->
  card_inv c'.
Proof.
  intros Hinv Hcalls Hsub.
  apply card_inv_grow with (c := c) (extra := []) (more := []).
  - exact Hinv.
  - rewrite app_nil_r. exact Hcalls.
  - constructor.
  - intros w Hw. left. apply Hsub. exact Hw.
  - constructor.
  - intros p [].
Qed.

Lemma card_inv_saveChanges_start (c : CardState) :
  card_inv c -> card_inv (saveChanges_start c).
Proof.
  intro Hinv.
  destruct (saveChanges_start_cases c)
    as [[_ ->] | [Ht [Hcalls [Hsaving _]]]]; [exact Hinv |].
  apply card_inv_grow with (c := c)
    (extra := [UpdatePipeline (nextSave c) (id (pipeline c))
                 (trim (editName c))])
    (more := [(nextSave c, {| cl_pipeline := pipeline c;
                              cl_editName := editName c;
                              cl_hasOnUpdate := hasOnUpdate c |})]).
  - exact Hinv.
  - exact Hcalls.
  - simpl. constructor; [| constructor]. simpl. split.
    + intro Hnil. rewrite Hnil in Ht. discriminate.
    + apply FormExtra.trim_idempotent.
  - intros w Hw. rewrite Hsaving in Hw. apply in_app_or in Hw. exact Hw.
  - constructor; [| constructor]. simpl.
    rewrite sent_app. apply in_or_app. right. left. reflexivity.
  - intros p [Heq | []]. discriminate.
Qed.

(** A step that leaves the calls alone and drops no save but listed ones. *)
Ltac keeps_calls Hinv :=
  apply card_inv_same_calls with (1 := Hinv);
  [reflexivity | simpl; auto].

Lemma card_inv_step (c c' : CardState) (e : Event) :
  card_inv c -> step c e = Some c' -> card_inv c'.
Proof.
  intros Hinv Hstep.
  destruct e as [ | text | key | | | save settled called | p h];
    simpl in Hstep.
  - injection Hstep as <-. keeps_calls Hinv.
  - destruct (isEditing c); [| discriminate].
    injection Hstep as <-. keeps_calls Hinv.
  - destruct (isEditing c); [| discriminate].
    injection Hstep as <-. unfold handleKeyDown.
    destruct (str_eqb key (lit "Enter")).
    + apply card_inv_saveChanges_start.
      apply card_inv_grow with (c := c) (extra := [PreventDefault])
        (more := []).
      * exact Hinv.
      * reflexivity.
      * constructor.
      * simpl. auto.
      * constructor.
      * intros p [Heq | []]. discriminate.
    + destruct (str_eqb key (lit "Escape")); [| exact Hinv].
      keeps_calls Hinv.
  - destruct (isEditing c && negb (saveDisabled c)); [| discriminate].
    injection Hstep as <-. apply card_inv_saveChanges_start. exact Hinv.
  - destruct (isEditing c && negb (cancelDisabled c)); [| discriminate].
    injection Hstep as <-. keeps_calls Hinv.
  - destruct (take_save save (saving c)) as [[cl rest]|] eqn:Htake;
      [| discriminate].
    injection Hstep as <-.
    destruct (take_save_some _ _ Htake) as [Hin Hrest].
    assert (Hcl : In (id (cl_pipeline cl), trim (cl_editName cl))
                     (sent (calls c))).
    { destruct Hinv as [_ [Hsaving _]].
      rewrite Forall_forall in Hsaving. exact (Hsaving _ Hin). }
    unfold saveChanges_resume, try_catch_finallyC, bindC, awaitC, execC,
      retC.
    destruct settled as [[] | err]; simpl.
    + destruct (cl_hasOnUpdate cl); simpl.
      * destruct called as [[] | err]; simpl.
        -- apply card_inv_grow with (c := c)
             (extra := [OnUpdate (with_name (cl_pipeline cl)
                                    (trim (cl_editName cl)))])
             (more := []).
           ++ exact Hinv.
           ++ reflexivity.
           ++ constructor.
           ++ simpl. auto.
           ++ constructor.
           ++ intros p [Heq | []]. injection Heq as <-. simpl.
              rewrite sent_app. apply in_or_app. left. exact Hcl.
        -- apply card_inv_grow with (c := c)
             (extra := [OnUpdate (with_name (cl_pipeline cl)
                                    (trim (cl_editName cl)));
                        ConsoleError err])
             (more := []).
           ++ exact Hinv.
           ++ simpl. rewrite <- app_assoc. reflexivity.
           ++ constructor.
           ++ simpl. auto.
           ++ constructor.
           ++ intros p [Heq | [Heq | []]]; [| discriminate].
              injection Heq as <-. simpl.
              rewrite sent_app. apply in_or_app. left. exact Hcl.
      * keeps_calls Hinv.
    + apply card_inv_grow with (c := c) (extra := [ConsoleError err])
        (more := []).
      * exact Hinv.
      * reflexivity.
      * constructor.
      * simpl. auto.
      * constructor.
      * intros p [Heq | []]. discriminate.
  - injection Hstep as <-. keeps_calls Hinv.
Qed.

Lemma card_inv_reachable (es : list Event) :
  forall c c', card_inv c -> run c es = Some c' -> card_inv c'.
Proof.
  induction es as [|e r IH]; intros c c' Hinv Hrun; simpl in Hrun.
  - injection Hrun as <-. exact Hinv.
  - destruct (step c e) as [c1|] eqn:He; [| discriminate].
    apply (IH c1 c'); [| exact Hrun].
    exact (@card_inv_step c c1 e Hinv He).
Qed.

(** X11. However the card is used, every name it sends to [updatePipeline]
    is trimmed and not empty, and every pipeline it reports through
    [onUpdate] carries a name that was sent to [updatePipeline] under that
    pipeline's id. *)
Theorem card_sends_clean_names (p : Pipeline) (h : bool) (es : list Event)
    (c : CardState) :
  run (initial p h) es = Some c ->
  (forall i n, In (i, n) (sent (calls c)) -> n <> [] /\ trim n = n) /\
  (forall q, In (OnUpdate q) (calls c) ->
     In (id q, name q) (sent (calls c))).
Proof.
  intro Hrun.
  assert (Hinit : card_inv (initial p h)).
  { repeat split; try constructor. intros q []. }
  destruct (card_inv_reachable es Hinit Hrun) as [Hsent [_ Hon]].
  split; [| exact Hon].
  intros i n Hin. rewrite Forall_forall in Hsent.
  exact (Hsent (i, n) Hin).
Qed.

Lemma card_sends_clean_names_witness :
  exists c,
    run (initial CardSamples.pipeline1 true)
      (CardSamples.typed ++
       [KeyDown (lit "Enter"); SaveSettled 0 (LiveBuilder.Normal tt) (LiveBuilder.Normal tt)])
    = Some c /\
    sent (calls c) = [(lit "pipe-1", lit "Hot leads")] /\
    (forall q, In (OnUpdate q) (calls c) ->
       In (id q, name q) (sent (calls c))).
Proof.
  eexists. split; [vm_compute; reflexivity |].
  split; [vm_compute; reflexivity |].
  apply (@card_sends_clean_names CardSamples.pipeline1 true
           (CardSamples.typed ++
            [KeyDown (lit "Enter"); SaveSettled 0 (LiveBuilder.Normal tt) (LiveBuilder.Normal tt)])).
  vm_compute. reflexivity.
Defined.

(** X12. Whatever [updatePipeline] settles with, and whatever the parent's
    [onUpdate] does, [saveChanges] completes normally, clears the saving
    flag and leaves the typed name alone.  The editor closes only when the
    update went through (and [onUpdate], if given, returned); when the
    update failed, [onUpdate] is not called, the error goes to the console
    and the editor stays as it was, so the save can be tried again. *)
Theorem save_settles (cl : Closure)
    (settled called : LiveBuilder.Completion unit) (c : CardState) :
  fst (saveChanges_resume cl settled called c) = LiveBuilder.Normal tt /\
  let c' := snd (saveChanges_resume cl settled called c) in
  isSaving c' = false /\ editName c' = editName c /\
  saveDisabled c' = negb (truthy (trim (editName c))) /\
  match settled with
  | LiveBuilder.Throw err =>
      isEditing c' = isEditing c /\
      calls c' = calls c ++ [ConsoleError err]
  | LiveBuilder.Normal _ =>
      if cl_hasOnUpdate cl then
        match called with
        | LiveBuilder.Normal _ =>
            isEditing c' = false /\
            calls c' =
              calls c ++ [OnUpdate (with_name (cl_pipeline cl)
                                      (trim (cl_editName cl)))]
        | LiveBuilder.Throw err =>
            isEditing c' = isEditing c /\
            calls c' =
              calls c ++ [OnUpdate (with_name (cl_pipeline cl)
                                      (trim (cl_editName cl)));
                          ConsoleError err]
        end
      else isEditing c' = false /\ calls c' = calls c
  end.
Proof.
  unfold saveChanges_resume, try_catch_finallyC, bindC, awaitC, execC, retC,
    saveDisabled.
  destruct settled as [[] | err]; simpl.
  - destruct (cl_hasOnUpdate cl); simpl.
    + destruct called as [[] | err]; simpl;
        rewrite ?orb_false_r, <- ?app_assoc; repeat split.
    + rewrite orb_false_r. repeat split.
  - rewrite orb_false_r. repeat split.
Qed.

(** X13. While the [isSaving] flag is set, the save button and the cancel
    button are disabled; the Enter key is not guarded by the flag: with a
    name that is not blank, Enter calls [updatePipeline] once more and adds
    a waiting save. *)
Theorem enter_not_guarded_by_saving (c : CardState) :
  isEditing c = true ->
  isSaving c = true ->
  truthy (trim (editName c)) = true ->
  step c ClickSave = None /\
  step c ClickCancel = None /\
  exists c',
    step c (KeyDown (lit "Enter")) = Some c' /\
    sent (calls c') =
      sent (calls c) ++ [(id (pipeline c), trim (editName c))] /\
    saving c' =
      saving c ++ [(nextSave c,
                    {| cl_pipeline := pipeline c;
                       cl_editName := editName c;
                       cl_hasOnUpdate := hasOnUpdate c |})].
Proof.
  intros He Hs Ht. simpl.
  unfold saveDisabled, cancelDisabled. rewrite He, Hs, Ht. simpl.
  split; [reflexivity |]. split; [reflexivity |].
  eexists. split; [reflexivity |].
  unfold handleKeyDown. simpl.
  destruct (saveChanges_start_cases (emit c PreventDefault))
    as [[Hblank _] | [_ [Hcalls [Hsaving _]]]].
  - simpl in Hblank. congruence.
  - rewrite Hcalls, Hsaving. simpl.
    rewrite !sent_app. simpl. rewrite app_nil_r. split; reflexivity.
Qed.

Lemma enter_not_guarded_by_saving_witness :
  step CardSamples.card_saving ClickSave = None /\
  step CardSamples.card_saving ClickCancel = None /\
  exists c',
    step CardSamples.card_saving (KeyDown (lit "Enter")) = Some c' /\
    sent (calls c') =
      sent (calls CardSamples.card_saving) ++
      [(id (pipeline CardSamples.card_saving),
        trim (editName CardSamples.card_saving))] /\
    saving c' =
      saving CardSamples.card_saving ++
      [(nextSave CardSamples.card_saving,
        {| cl_pipeline := pipeline CardSamples.card_saving;
           cl_editName := editName CardSamples.card_saving;
           cl_hasOnUpdate := hasOnUpdate CardSamples.card_saving |})].
Proof.
  apply enter_not_guarded_by_saving; vm_compute; reflexivity.
Defined.

End CardSpec.

(** ** The modal under its parent *)

Module LiveBuilderHostSpec.

Import LiveBuilder LiveBuilderView LiveBuilderHost.

Lemma step_keeps_open_flags (m m' : Modal) (e : Event) :
  step m e = Some m' -> e <> EvOpen -> e <> EvClose ->
  isOpen m' = isOpen m /\ hasStartedRef m' = hasStartedRef m.
Proof.
  intros Hstep Hno Hnc.
  destruct e as [ | | run | run settled now | | ]; simpl in Hstep.
  - contradiction Hno. reflexivity.
  - contradiction Hnc. reflexivity.
  - destruct (take_timer run (timeouts m)) as [[t rest]|]; [| discriminate].
    injection Hstep as <-. split; reflexivity.
  - destruct (mem_run run (inFlight m)); [| discriminate].
    injection Hstep as <-.
    destruct settled as [r | err];
      [rewrite LiveBuilderSpec.resume_returned
      | rewrite LiveBuilderSpec.resume_thrown]; split; reflexivity.
  - injection Hstep as <-.
    unfold handleCancel, abort. destruct (abortControllerRef m);
      split; reflexivity.
  - injection Hstep as <-.
    unfold handleViewResults. destruct (apiResponse m); split; reflexivity.
Qed.

Lemma runCleanup_same (h : Hosted) :
  isOpen (runCleanup h) = isOpen (modal h) /\
  hasStartedRef (runCleanup h) = hasStartedRef (modal h) /\
  prompt (runCleanup h) = prompt (modal h) /\
  csvBase64 (runCleanup h) = csvBase64 (modal h) /\
  calls (runCleanup h) = calls (modal h) /\
  nextRun (runCleanup h) = nextRun (modal h).
Proof.
  unfold runCleanup, abort.
  destruct (cleanupRegistered h); [| repeat split].
  destruct (abortControllerRef (modal h)); repeat split.
Qed.

(** What one turn under the parent does to the calls of the API. *)
Lemma host_step_api_calls (h h' : Hosted) (e : HostEvent) :
  started_iff_open (modal h) -> host_step h e = Some h' ->
  started_iff_open (modal h') /\
  api_calls (calls (modal h')) =
    api_calls (calls (modal h)) ++
    combine (seq (nextRun (modal h)) 1)
      (requests_expected (prompt (modal h)) (csvBase64 (modal h)) [e]) /\
  nextRun (modal h') =
    nextRun (modal h) +
    List.length
      (requests_expected (prompt (modal h)) (csvBase64 (modal h)) [e]) /\
  match e with
  | EvProps p c => prompt (modal h') = p /\ csvBase64 (modal h') = c
  | Base _ =>
      prompt (modal h') = prompt (modal h) /\
      csvBase64 (modal h') = csvBase64 (modal h)
  end.
Proof.
  unfold started_iff_open. intros Hinv Hstep.
  destruct (runCleanup_same h) as [Ho [Hs [Hp [Hc [Hcalls Hn]]]]].
  destruct e as [e | p c].
  - destruct e as [ | | run | run settled now | | ].
    + simpl in Hstep. destruct (isOpen (modal h)) eqn:Hopen; [discriminate |].
      injection Hstep as <-. simpl.
      unfold runEffect. simpl. rewrite Hs, Hinv. simpl.
      unfold request. simpl. rewrite Hcalls, Hn, Hp, Hc.
      repeat split.
      * rewrite LiveBuilderExtra.api_calls_app. reflexivity.
      * lia.
    + simpl in Hstep. destruct (isOpen (modal h)) eqn:Hopen; [| discriminate].
      injection Hstep as <-. simpl.
      rewrite Hcalls, Hn, Hp, Hc, app_nil_r.
      repeat split. lia.
    + cbn [host_step] in Hstep.
      destruct (step (modal h) (EvTimeout run)) as [m'|] eqn:He;
        [| discriminate].
      injection Hstep as <-. simpl.
      destruct (@step_keeps_open_flags _ _ _ He) as [Ho' Hs'];
        try discriminate.
      assert (Hcu : closed_unstarted (modal h))
        by (intro H; rewrite Hinv; exact H).
      destruct (@LiveBuilderExtra.step_api_calls _ _ _ Hcu He)
        as [_ [Hp' [Hc' [Ha' Hn']]]].
      rewrite Ha', Hn', app_nil_r. repeat split; try assumption; try lia.
      rewrite Ho', Hs'. exact Hinv.
    + cbn [host_step] in Hstep.
      destruct (step (modal h) (EvSettle run settled now)) as [m'|] eqn:He;
        [| discriminate].
      injection Hstep as <-. simpl.
      destruct (@step_keeps_open_flags _ _ _ He) as [Ho' Hs'];
        try discriminate.
      assert (Hcu : closed_unstarted (modal h))
        by (intro H; rewrite Hinv; exact H).
      destruct (@LiveBuilderExtra.step_api_calls _ _ _ Hcu He)
        as [_ [Hp' [Hc' [Ha' Hn']]]].
      rewrite Ha', Hn', app_nil_r. repeat split; try assumption; try lia.
      rewrite Ho', Hs'. exact Hinv.
    + cbn [host_step] in Hstep.
      destruct (step (modal h) EvCancel) as [m'|] eqn:He; [| discriminate].
      injection Hstep as <-. simpl.
      destruct (@step_keeps_open_flags _ _ _ He) as [Ho' Hs'];
        try discriminate.
      assert (Hcu : closed_unstarted (modal h))
        by (intro H; rewrite Hinv; exact H).
      destruct (@LiveBuilderExtra.step_api_calls _ _ _ Hcu He)
        as [_ [Hp' [Hc' [Ha' Hn']]]].
      rewrite Ha', Hn', app_nil_r. repeat split; try assumption; try lia.
      rewrite Ho', Hs'. exact Hinv.
    + cbn [host_step] in Hstep.
      destruct (step (modal h) EvViewResults) as [m'|] eqn:He;
        [| discriminate].
      injection Hstep as <-. simpl.
      destruct (@step_keeps_open_flags _ _ _ He) as [Ho' Hs'];
        try discriminate.
      assert (Hcu : closed_unstarted (modal h))
        by (intro H; rewrite Hinv; exact H).
      destruct (@LiveBuilderExtra.step_api_calls _ _ _ Hcu He)
        as [_ [Hp' [Hc' [Ha' Hn']]]].
      rewrite Ha', Hn', app_nil_r. repeat split; try assumption; try lia.
      rewrite Ho', Hs'. exact Hinv.
  - simpl in Hstep. simpl.
    destruct (str_eqb p (prompt (modal h)) && str_eqb c (csvBase64 (modal h)))
      eqn:Hsame.
    + injection Hstep as <-.
      apply andb_true_iff in Hsame. destruct Hsame as [Hp1 Hc1].
      apply FormExtra.str_eqb_eq in Hp1, Hc1.
      rewrite app_nil_r. repeat split; auto; lia.
    + injection Hstep as <-. simpl.
      unfold runEffect. simpl. rewrite Ho, Hs, Hinv.
      destruct (isOpen (modal h)); simpl;
        rewrite Hcalls, Hn, app_nil_r; repeat split; auto; try lia;
        rewrite ?Ho, ?Hs; auto.
Qed.

Lemma host_run_api_calls (es : list HostEvent) :
  forall h h',
    started_iff_open (modal h) -> host_run h es = Some h' ->
    api_calls (calls (modal h')) =
      api_calls (calls (modal h)) ++
      combine
        (seq (nextRun (modal h))
           (List.length
              (requests_expected (prompt (modal h)) (csvBase64 (modal h))
                 es)))
        (requests_expected (prompt (modal h)) (csvBase64 (modal h)) es).
Proof.
  induction es as [|e r IH]; intros h h' Hinv Hrun; simpl in Hrun.
  - injection Hrun as <-. simpl. rewrite app_nil_r. reflexivity.
  - destruct (host_step h e) as [h1|] eqn:He; [| discriminate].
    destruct (@host_step_api_calls h h1 e Hinv He) as [Hinv1 [Hapi [Hnext Hprops]]].
    rewrite (IH h1 h' Hinv1 Hrun), Hapi, Hnext.
    destruct e as [[ | | run | run settled now | | ] | p' c'];
      destruct Hprops as [-> ->]; simpl;
      rewrite <- ?app_assoc, ?app_nil_r, ?Nat.add_0_r, ?Nat.add_1_r;
      reflexivity.
Qed.

(** X8. Under any sequence of openings, closings, changes of the prompt and
    CSV props, timers, settled calls and handler calls, the component calls
    the API exactly once for every opening, with the prompt and the CSV
    content in force at that opening and a bound of 3 fix iterations; a
    change of the prompt or the CSV while the modal is open starts no
    further call. *)
Theorem one_api_call_per_opening (p c : JsString) (es : list HostEvent)
    (h : Hosted) :
  host_run (host_mount p c) es = Some h ->
  api_calls (calls (modal h)) =
    combine (seq 0 (List.length (requests_expected p c es)))
      (requests_expected p c es).
Proof.
  intro Hrun.
  apply (@host_run_api_calls es (host_mount p c) h); [reflexivity | exact Hrun].
Qed.

Lemma one_api_call_per_opening_witness :
  exists h,
    host_run (host_mount (lit "first") (lit "ZW1haWwK"))
      [EvProps (lit "dedupe") (lit "ZW1haWwK"); Base EvOpen;
       EvProps (lit "dedupe by email") (lit "ZW1haWwK");
       Base (EvSettle 0 (Normal Samples.response_clean) Samples.now1);
       Base EvClose; Base EvOpen] = Some h /\
    map (fun x => req_prompt (snd x)) (api_calls (calls (modal h)))
    = [lit "dedupe"; lit "dedupe by email"].
Proof.
  eexists. split; [vm_compute; reflexivity |].
  rewrite (@one_api_call_per_opening (lit "first") (lit "ZW1haWwK")
             [EvProps (lit "dedupe") (lit "ZW1haWwK"); Base EvOpen;
              EvProps (lit "dedupe by email") (lit "ZW1haWwK");
              Base (EvSettle 0 (Normal Samples.response_clean) Samples.now1);
              Base EvClose; Base EvOpen]).
  - vm_compute. reflexivity.
  - vm_compute. reflexivity.
Defined.

End LiveBuilderHostSpec.
